(** * LLMtesting: the Ollama benchmark drivers

    A shallow embedding of [ollama_smart_benchmark.go] (module [Smart]) and
    of [ollama_benchmark.go] (module [Basic]), followed by the properties of
    the catalog, the footprint estimator, the admission filter, the
    benchmark executor and the ranking that the specification states.

    Conventions of the embedding:
    - Go [int]/[int64] values are [Z]; additions the code performs on them
      are written with the 64-bit wrap-around ([int64_add]).
    - Go [float64] values are Rocq's primitive binary64 floats.
    - Go strings are byte strings ([string], a list of [ascii]).
    - Every HTTP exchange with the daemon is an effect: the replies of the
      daemon are scripted in a [World], threaded through a state monad. *)

From Stdlib Require Import ZArith String Ascii List Floats Lia Bool.
From stdpp Require Import base list gmap strings sorting.

Local Open Scope string_scope.
Local Open Scope list_scope.

(** ** Go runtime: integers, floats, strings *)

Definition int64_min : Z := (- 2 ^ 63)%Z.
Definition int64_max : Z := (2 ^ 63 - 1)%Z.

Definition int64_range (z : Z) : Prop := (int64_min <= z <= int64_max)%Z.

(** Two's complement reduction of an integer to 64 bits. *)
Definition int64_wrap (z : Z) : Z := ((z + 2 ^ 63) mod 2 ^ 64 - 2 ^ 63)%Z.

(** [a + b] on [int64]. *)
Definition int64_add (a b : Z) : Z := int64_wrap (a + b).

(** [float64(z)] for an integer [z]: rounding to nearest, ties to even. *)
Definition float64_of_int (z : Z) : float :=
  SF2Prim (binary_normalize prec emax z 0%Z false).

(** [strings.HasPrefix(s, prefix)]. *)
Definition strings_HasPrefix (s pre : string) : bool := String.prefix pre s.

(** [strings.Contains(s, substr)]: [substr] starts at some position of [s]. *)
Fixpoint strings_Contains (s substr : string) : bool :=
  String.prefix substr s ||
  match s with
  | EmptyString => false
  | String _ rest => strings_Contains rest substr
  end.

(** [strings.Split(s, sep)] for a one-byte separator (the drivers only split
    on ":"): the pieces of [s] between the occurrences of [sep]; there is
    always at least one piece. *)
Fixpoint strings_Split (s : string) (sep : ascii) : list string :=
  match s with
  | EmptyString => [EmptyString]
  | String c rest =>
      if Ascii.eqb c sep then EmptyString :: strings_Split rest sep
      else match strings_Split rest sep with
           | piece :: pieces => String c piece :: pieces
           | [] => [String c EmptyString]
           end
  end.

(** [sort.Strings]: ascending byte-wise order. The order on strings is total
    and antisymmetric, so the sorted slice is determined by its elements and
    any sorting algorithm models it. *)
Definition sort_Strings (l : list string) : list string :=
  merge_sort String.le l.

(** [sort.Slice(x, less)] is Go's library code; its documentation promises
    that the slice is sorted by [less] and states that the sort is not
    guaranteed to be stable. It enters the development through that
    contract: the result is a rearrangement of the slice and, when [less] is
    a strict weak order on the elements, no later element is [less] than an
    earlier one. *)
Definition strict_weak_on {A} (less : A → A → bool) (l : list A) : Prop :=
  (∀ x y, x ∈ l → y ∈ l → less x y = true → less y x = false) ∧
  (∀ x y z, x ∈ l → y ∈ l → z ∈ l →
     less x y = false → less y z = false → less x z = false).

Definition sorted_by {A} (less : A → A → bool) (l : list A) : Prop :=
  ∀ i j x y, i < j → l !! i = Some x → l !! j = Some y → less y x = false.

Class SortSlice := {
  sort_Slice : ∀ {A : Type}, (A → A → bool) → list A → list A;
  sort_Slice_Permutation :
    ∀ {A} (less : A → A → bool) l, sort_Slice less l ≡ₚ l;
  sort_Slice_sorted :
    ∀ {A} (less : A → A → bool) l,
      strict_weak_on less l → sorted_by less (sort_Slice less l)
}.

(** Two implementations of the contract. Insertion sort keeps the input
    order of equal elements. *)
Fixpoint insert_by {A} (less : A → A → bool) (x : A) (l : list A) : list A :=
  match l with
  | [] => [x]
  | y :: l' => if less x y then x :: y :: l' else y :: insert_by less x l'
  end.

Definition insertion_sort {A} (less : A → A → bool) (l : list A) : list A :=
  foldl (λ acc x, insert_by less x acc) [] l.


(** The keys of a Go map in the order a [range] visits them. Go leaves that
    order unspecified; here it is the order of [map_to_list]. *)
Definition range_keys (m : gmap string bool) : list string :=
  (map_to_list m).*1.

(** ** JSON values, as [encoding/json] decodes them into [interface{}] *)

Inductive JSONValue :=
| JNull
| JBool (b : bool)
| JNumber (f : float)
| JString (s : string)
| JComposite.  (* arrays and objects: the drivers never look inside *)

(** ** The daemon's HTTP surface

    The request and response structures are declared identically in both
    drivers. *)

Module OllamaModel.
Record t := mk { Name : string; ModifiedAt : string; Size : Z }.
End OllamaModel.

Module OllamaTagsResponse.
Record t := mk { Models : list OllamaModel.t }.
End OllamaTagsResponse.

Module GenerateRequest.
Record t := mk { Model : string; Prompt : string; Stream : bool }.
End GenerateRequest.

Module GenerateResponse.
Record t := mk {
    Model : string;
    CreatedAt : string;
    Response : string;
    Done : bool;
    TotalDuration : Z;
    LoadDuration : Z;
    PromptEvalCount : Z;
    PromptEvalDuration : Z;
    EvalCount : Z;
    EvalDuration : Z
  }.
End GenerateResponse.

(** What [GET /api/tags] can do: the transport fails, or a response arrives
    with a status code and a body that decodes ([Some]) or not ([None]). *)
Inductive TagsReply :=
| TagsTransportError (err : string)
| TagsResponse (statusCode : Z) (body : option OllamaTagsResponse.t).

(** One [decoder.Decode(&status)] on the body of [POST /api/pull]: a JSON
    object, or an error other than [io.EOF]. The end of the list is
    [io.EOF]. *)
Inductive PullItem :=
| PullStatus (status : gmap string JSONValue)
| PullDecodeError (err : string).

Inductive PullReply :=
| PullTransportError (err : string)
| PullStream (items : list PullItem).

(** What one generation call can meet, in the order [runBenchmark] checks:
    [json.Marshal] fails, [http.Post] fails, [io.ReadAll] fails,
    [json.Unmarshal] fails, or the response decodes; [elapsedMs] is
    [time.Since(startTime).Milliseconds()]. *)
Inductive GenerateReply :=
| GenMarshalError (err : string)
| GenSendError (err : string)
| GenReadError (err : string)
| GenParseError (err : string)
| GenDecoded (genResp : GenerateResponse.t) (elapsedMs : Z).

(** The daemon as the drivers meet it: for each endpoint the replies in the
    order of the calls, and how many calls were made so far. *)
Module World.
Record t := mk {
    tags : nat → TagsReply;
    pulls : nat → PullReply;
    generates : nat → GenerateReply;
    tagsCalls : nat;
    pullCalls : nat;
    generateCalls : nat
  }.
End World.

(** Effectful code is a state transformer over the world. *)
Definition IO (A : Type) : Type := World.t → A * World.t.

#[global] Instance IO_ret : MRet IO := λ A (x : A) w, (x, w).
#[global] Instance IO_bind : MBind IO :=
  λ A B (f : A → IO B) (m : IO A) w, let '(x, w') := m w in f x w'.

Definition http_Get_tags : IO TagsReply := λ w,
  (World.tags w (World.tagsCalls w),
   World.mk (World.tags w) (World.pulls w) (World.generates w)
            (S (World.tagsCalls w)) (World.pullCalls w) (World.generateCalls w)).

Definition http_Post_pull (name : string) : IO PullReply := λ w,
  (World.pulls w (World.pullCalls w),
   World.mk (World.tags w) (World.pulls w) (World.generates w)
            (World.tagsCalls w) (S (World.pullCalls w)) (World.generateCalls w)).

Definition http_Post_generate (req : GenerateRequest.t) : IO GenerateReply := λ w,
  (World.generates w (World.generateCalls w),
   World.mk (World.tags w) (World.pulls w) (World.generates w)
            (World.tagsCalls w) (World.pullCalls w) (S (World.generateCalls w))).

(** [for _, x := range xs { ... }] with an effectful body that updates an
    accumulator. *)
Fixpoint forM {A S : Type} (xs : list A) (body : S → A → IO S) (acc : S) : IO S :=
  match xs with
  | [] => mret acc
  | x :: xs' => acc' ← body acc x; forM xs' body acc'
  end.

(** [fmt.Sprintf(prefix + "%v", err)]. *)
Definition Sprintf_err (pre err : string) : string := String.append pre err.

(** ** The configuration-driven driver, [ollama_smart_benchmark.go] *)

Module Smart.

Module LLMFamily.
Record t := mk { Name : string; Enabled : bool; TestAllVariants : bool }.
End LLMFamily.

Module ResourceLimits.
Record t := mk { MaxRAMUsagePercent : Z; MinFreeRAMGB : Z }.
End ResourceLimits.

Module TestSettings.
Record t := mk {
    AutoPullModels : bool;
    SkipIfInsufficientResources : bool;
    ParallelTesting : bool
  }.
End TestSettings.

Module Config.
Record t := mk {
    LLMFamilies : list LLMFamily.t;
    ResourceLimits : ResourceLimits.t;
    TestSettings : TestSettings.t
  }.
End Config.

Module SystemInfo.
Record t := mk { TotalRAMGB : Z; AvailableRAMGB : Z; Arch : string }.
End SystemInfo.

Module TestCase.
Record t := mk { Name : string; Prompt : string; Category : string }.
End TestCase.

Module BenchmarkResult.
Record t := mk {
    ModelName : string;
    ModelSize : string;
    TestName : string;
    Category : string;
    TokensPerSecond : float;
    TimeToFirstToken : float;
    TotalTokens : Z;
    PromptTokens : Z;
    TotalTimeMs : float;
    Response : string;
    Success : bool;
    Error : string;
    RAMUsedGB : float
  }.
End BenchmarkResult.

Module ModelSummary.
Record t := mk {
    ModelName : string;
    ModelSize : string;
    AvgTokensPerSec : float;
    AvgTotalTimeMs : float;
    TestResults : list BenchmarkResult.t;
    CanRun : bool;
    SkipReason : string
  }.
End ModelSummary.

(** The battery declared in [main]. *)
Definition testCases : list TestCase.t := [
  TestCase.mk "Simple Reasoning"
    "Explain the concept of recursion in programming in one paragraph."
    "reasoning";
  TestCase.mk "Code Generation"
    "Write a Python function to calculate the factorial of a number using recursion."
    "coding";
  TestCase.mk "Mathematical Problem"
    "If a train travels at 60 mph for 2.5 hours, how far does it travel? Show your work."
    "math";
  TestCase.mk "Creative Writing"
    "Write a short haiku about artificial intelligence."
    "creative";
  TestCase.mk "Question Answering"
    "What is the capital of France and what is it famous for?"
    "qa"
].

Definition checkOllamaRunning : IO bool :=
  reply ← http_Get_tags;
  mret match reply with
       | TagsTransportError _ => false
       | TagsResponse statusCode _ => (statusCode =? 200)%Z
       end.

Definition variants : gmap string (list string) := list_to_map [
  ("qwen2.5", ["qwen2.5:0.5b"; "qwen2.5:1.5b"; "qwen2.5:3b"; "qwen2.5:7b";
               "qwen2.5:14b"; "qwen2.5:32b"]);
  ("gemma2", ["gemma2:2b"; "gemma2:9b"; "gemma2:27b"]);
  ("llama3.2", ["llama3.2:1b"; "llama3.2:3b"]);
  ("llama3.1", ["llama3.1:8b"; "llama3.1:70b"; "llama3.1:405b"]);
  ("mistral", ["mistral:7b"; "mistral:latest"]);
  ("codellama", ["codellama:7b"; "codellama:13b"; "codellama:34b";
                 "codellama:70b"]);
  ("phi3", ["phi3:mini"; "phi3:medium"]);
  ("deepseek-coder", ["deepseek-coder:1.3b"; "deepseek-coder:6.7b";
                      "deepseek-coder:33b"])
].

Definition getCommonVariants (family : string) : list string :=
  match variants !! family with
  | Some v => v
  | None => [String.append family ":latest"]
  end.

(** The loops of [getOllamaLibraryModels] over the decoded tag listing. *)
Definition collectModels (families : list LLMFamily.t)
    (tagsResp : OllamaTagsResponse.t) : list string :=
  let installedModels : gmap string bool :=
    foldl (λ installed m, <[OllamaModel.Name m := true]> installed) ∅
          (OllamaTagsResponse.Models tagsResp) in
  foldl (λ models family,
    if negb (LLMFamily.Enabled family) then models
    else
      let models :=
        foldl (λ models modelName,
                 if strings_HasPrefix modelName (LLMFamily.Name family)
                 then models ++ [modelName] else models)
              models (range_keys installedModels) in
      if LLMFamily.TestAllVariants family then
        foldl (λ models variant,
                 (* Only add if not already in list *)
                 let found := existsb (λ m, String.eqb m variant) models in
                 if negb found then models ++ [variant] else models)
              models (getCommonVariants (LLMFamily.Name family))
      else models)
    [] families.

Definition getOllamaLibraryModels (config : Config.t) : IO (list string) :=
  reply ← http_Get_tags;
  mret match reply with
       | TagsTransportError _ => []
       | TagsResponse _ None => []
       | TagsResponse _ (Some tagsResp) =>
           sort_Strings (collectModels (Config.LLMFamilies config) tagsResp)
       end.

Definition extractModelSize (modelName : string) : string :=
  match strings_Split modelName ":"%char with
  | _ :: part1 :: _ => part1
  | _ => "unknown"
  end.

Definition estimateModelRAM (modelName : string) : Z :=
  let size := extractModelSize modelName in
  let has := strings_Contains size in
  if has "0.5b" || has "0.6b" then 1
  else if has "1b" || has "1.3b" || has "1.5b" || has "1.7b" then 2
  else if has "2b" then 2
  else if has "3b" then 3
  else if has "6.7b" || has "7b" then 5
  else if has "8b" then 6
  else if has "9b" then 6
  else if has "13b" || has "14b" then 9
  else if has "27b" then 16
  else if has "32b" || has "33b" || has "34b" then 20
  else if has "70b" then 40
  else if has "235b" then 130
  else if has "405b" then 220
  else if has "671b" then 370
  else if has "mini" then 3
  else if has "medium" then 9
  else 5 (* default *).

Definition filterModelsByResources (models : list string)
    (sysInfo : SystemInfo.t) (config : Config.t) : list string :=
  if negb (TestSettings.SkipIfInsufficientResources (Config.TestSettings config))
  then models
  else
    foldl (λ testable model,
             let estimatedRAM := estimateModelRAM model in
             let minFree := ResourceLimits.MinFreeRAMGB (Config.ResourceLimits config) in
             if (int64_add estimatedRAM minFree <=? SystemInfo.AvailableRAMGB sysInfo)%Z
             then testable ++ [model] else testable)
          [] models.

(** What [main] prints about the models left out by the filter: nothing
    ([None]) unless there are more available than testable models; else the
    number announced, [len(availableModels)-len(testableModels)], and the
    models listed, those of [availableModels] not found in
    [testableModels]. *)
Definition skippedModels (availableModels testableModels : list string)
  : option (Z * list string) :=
  if (Z.of_nat (length testableModels) <? Z.of_nat (length availableModels))%Z then
    Some ((Z.of_nat (length availableModels) - Z.of_nat (length testableModels))%Z,
          foldl (λ skipped model,
                   let found := existsb (λ tm, String.eqb tm model) testableModels in
                   if negb found then skipped ++ [model] else skipped)
                [] availableModels)
  else None.

Definition checkModelInstalled (model : string) : IO bool :=
  reply ← http_Get_tags;
  mret match reply with
       | TagsTransportError _ => false
       | TagsResponse _ None => false
       | TagsResponse _ (Some tagsResp) =>
           existsb (λ m, String.eqb (OllamaModel.Name m) model)
                   (OllamaTagsResponse.Models tagsResp)
       end.

(** The [for] loop of [pullModel] over the decoder's results. *)
Fixpoint pullProgress (items : list PullItem) : bool :=
  match items with
  | [] => true                         (* err == io.EOF: break; return true *)
  | PullDecodeError _ :: _ => false    (* err != nil: return false *)
  | PullStatus status :: rest =>
      match status !! "status" with
      | Some (JString statusStr) =>
          if strings_Contains statusStr "success" then true
          else pullProgress rest
      | _ => pullProgress rest
      end
  end.

Definition pullModel (model : string) : IO bool :=
  reply ← http_Post_pull model;
  mret match reply with
       | PullTransportError _ => false
       | PullStream items => pullProgress items
       end.

(** [runBenchmark] once the outcome of the call is known. *)
Definition benchmarkResult (model : string) (test : TestCase.t)
    (reply : GenerateReply) : BenchmarkResult.t :=
  let result (err : string) :=
    BenchmarkResult.mk model (extractModelSize model) (TestCase.Name test)
      (TestCase.Category test) 0 0 0 0 0 "" false err 0 in
  match reply with
  | GenMarshalError err => result (Sprintf_err "Failed to marshal request: " err)
  | GenSendError err => result (Sprintf_err "Failed to send request: " err)
  | GenReadError err => result (Sprintf_err "Failed to read response: " err)
  | GenParseError err => result (Sprintf_err "Failed to parse response: " err)
  | GenDecoded genResp totalTimeMs =>
      BenchmarkResult.mk model (extractModelSize model) (TestCase.Name test)
        (TestCase.Category test)
        (if (0 <? GenerateResponse.EvalDuration genResp)%Z
         then float64_of_int (GenerateResponse.EvalCount genResp)
              / float64_of_int (GenerateResponse.EvalDuration genResp) * 1e9
         else 0)%float
        (if (0 <? GenerateResponse.LoadDuration genResp)%Z
            && (0 <? GenerateResponse.PromptEvalDuration genResp)%Z
         then float64_of_int (int64_add (GenerateResponse.LoadDuration genResp)
                                        (GenerateResponse.PromptEvalDuration genResp))
              / 1e6
         else 0)%float
        (GenerateResponse.EvalCount genResp)
        (GenerateResponse.PromptEvalCount genResp)
        (float64_of_int totalTimeMs)
        (GenerateResponse.Response genResp)
        true
        ""
        (float64_of_int (estimateModelRAM model))
  end.

Definition runBenchmark (model : string) (test : TestCase.t) : IO BenchmarkResult.t :=
  reply ← http_Post_generate (GenerateRequest.mk model (TestCase.Prompt test) false);
  mret (benchmarkResult model test reply).

(** The variables of the test loop in [main]: [results], [totalTPS],
    [totalTime], [successCount]. *)
Module Tally.
Record t := mk {
    results : list BenchmarkResult.t;
    totalTPS : float;
    totalTime : float;
    successCount : Z
  }.
End Tally.

Definition tally (acc : Tally.t) (result : BenchmarkResult.t) : Tally.t :=
  let results := Tally.results acc ++ [result] in
  if BenchmarkResult.Success result then
    Tally.mk results
      (Tally.totalTPS acc + BenchmarkResult.TokensPerSecond result)%float
      (Tally.totalTime acc + BenchmarkResult.TotalTimeMs result)%float
      (int64_add (Tally.successCount acc) 1)
  else
    Tally.mk results (Tally.totalTPS acc) (Tally.totalTime acc)
      (Tally.successCount acc).

Definition summarize (model : string) (acc : Tally.t) : ModelSummary.t :=
  let successCount := Tally.successCount acc in
  let avgTPS :=
    if (0 <? successCount)%Z
    then (Tally.totalTPS acc / float64_of_int successCount)%float else 0%float in
  let avgTime :=
    if (0 <? successCount)%Z
    then (Tally.totalTime acc / float64_of_int successCount)%float else 0%float in
  ModelSummary.mk model (extractModelSize model) avgTPS avgTime
    (Tally.results acc) (0 <? successCount)%Z "".

(** The part of the loop body of [main] after the installation check: the
    battery, then the summary. *)
Definition testModel (model : string) : IO ModelSummary.t :=
  acc ← forM testCases
         (λ acc test, result ← runBenchmark model test; mret (tally acc result))
         (Tally.mk [] 0 0 0);
  mret (summarize model acc).

(** One iteration of [for _, model := range testableModels]. *)
Definition benchmarkModel (config : Config.t)
    (summaries : list ModelSummary.t) (model : string) : IO (list ModelSummary.t) :=
  installed ← checkModelInstalled model;
  if negb installed then
    if TestSettings.AutoPullModels (Config.TestSettings config) then
      pulled ← pullModel model;
      if negb pulled then
        mret (summaries ++
              [ModelSummary.mk model "" 0 0 [] false "Failed to pull model"])
      else
        summary ← testModel model; mret (summaries ++ [summary])
    else
      mret (summaries ++
            [ModelSummary.mk model "" 0 0 [] false "Model not installed"])
  else
    summary ← testModel model; mret (summaries ++ [summary]).

Definition runBenchmarks (config : Config.t) (testableModels : list string)
  : IO (list ModelSummary.t) :=
  forM testableModels (benchmarkModel config) [].

(** ** [displayResults]: what the report is made of *)

(** The sections of the printed report. *)
Module Report.
Record t := mk {
    ranking : list ModelSummary.t;
    breakdown : list (string * list (string * BenchmarkResult.t));
    best : list (string * string * float);
    bestOverall : option ModelSummary.t;
    mostEfficient : option ModelSummary.t
  }.
End Report.

Section Display.
Context `{SortSlice}.

  (** [successful[i].AvgTokensPerSec > successful[j].AvgTokensPerSec]. *)
Definition fasterThan (a b : ModelSummary.t) : bool :=
    (ModelSummary.AvgTokensPerSec b <? ModelSummary.AvgTokensPerSec a)%float.

  (** The slice [successful] after [sort.Slice]: the overall ranking. *)
Definition overallRanking (summaries : list ModelSummary.t) : list ModelSummary.t :=
    let successful :=
      foldl (λ successful s,
               if ModelSummary.CanRun s then successful ++ [s] else successful)
            [] summaries in
    sort_Slice fasterThan successful.

  (** The map [categories]. *)
Definition categoriesOf (successful : list ModelSummary.t) : gmap string bool :=
    foldl (λ categories s,
             foldl (λ categories r,
                      if BenchmarkResult.Success r
                      then <[BenchmarkResult.Category r := true]> categories
                      else categories)
                   categories (ModelSummary.TestResults s))
          ∅ successful.

  (** The rows printed under "Category: <category>": model name and result. *)
Definition categoryRows (category : string) (successful : list ModelSummary.t)
    : list (string * BenchmarkResult.t) :=
    foldl (λ rows s,
             foldl (λ rows r,
                      if String.eqb (BenchmarkResult.Category r) category
                         && BenchmarkResult.Success r
                      then rows ++ [(ModelSummary.ModelName s, r)] else rows)
                   rows (ModelSummary.TestResults s))
          [] successful.

  (** One step of the search for the best model of a category; the state is
      [(bestModel, bestSpeed)]. *)
Definition bestStep (category : string) (modelName : string)
      (best : string * float) (r : BenchmarkResult.t) : string * float :=
    if String.eqb (BenchmarkResult.Category r) category
       && BenchmarkResult.Success r
       && (best.2 <? BenchmarkResult.TokensPerSecond r)%float
    then (modelName, BenchmarkResult.TokensPerSecond r)
    else best.

Definition bestInCategory (category : string) (successful : list ModelSummary.t)
    : string * float :=
    foldl (λ best s,
             foldl (bestStep category (ModelSummary.ModelName s)) best
                   (ModelSummary.TestResults s))
          ("", 0%float) successful.

  (** The lines under "Best Model for Each Category": a line is printed for
      a category when [bestModel != ""]. *)
Definition bestLines (successful : list ModelSummary.t)
    : list (string * string * float) :=
    foldl (λ lines category,
             let best := bestInCategory category successful in
             if negb (String.eqb best.1 "")
             then lines ++ [(category, best.1, best.2)] else lines)
          [] (range_keys (categoriesOf successful)).

  (** "Most efficient (smallest)". *)
Definition smallestModel (successful : list ModelSummary.t) : option ModelSummary.t :=
    foldl (λ smallest s,
             match smallest with
             | None => Some s
             | Some sm =>
                 if (estimateModelRAM (ModelSummary.ModelName s)
                     <? estimateModelRAM (ModelSummary.ModelName sm))%Z
                 then Some s else smallest
             end)
          None successful.

  (** [displayResults] prints nothing but "No results to display." for an
      empty slice of summaries ([None]). *)
Definition displayResults (summaries : list ModelSummary.t) : option Report.t :=
    if bool_decide (length summaries = 0) then None
    else
      let successful := overallRanking summaries in
      let categories := categoriesOf successful in
      Some (Report.mk successful
              (map (λ category, (category, categoryRows category successful))
                   (range_keys categories))
              (bestLines successful)
              (head successful)
              (smallestModel successful)).

  (** [main] from the daemon check on; the configuration and the system
      information are read before. [None]: the run stops before the
      benchmarks. *)
Definition main (config : Config.t) (sysInfo : SystemInfo.t)
    : IO (option (list ModelSummary.t * option Report.t)) :=
    running ← checkOllamaRunning;
    if negb running then mret None
    else
      availableModels ← getOllamaLibraryModels config;
      if bool_decide (length availableModels = 0) then mret None
      else
        let testableModels := filterModelsByResources availableModels sysInfo config in
        summaries ← runBenchmarks config testableModels;
        mret (Some (summaries, displayResults summaries)).
End Display.

End Smart.

(** ** The basic driver, [ollama_benchmark.go] *)

Module Basic.

Module TestCase.
Record t := mk { Name : string; Prompt : string; Category : string; ExpectedLen : Z }.
End TestCase.

Module BenchmarkResult.
Record t := mk {
  ModelName : string;
  TestName : string;
  Category : string;
  TokensPerSecond : float;
  TimeToFirstToken : float;
  TotalTokens : Z;
  PromptTokens : Z;
  TotalTimeMs : float;
  Response : string;
  Success : bool;
  Error : string
}.
End BenchmarkResult.

Module ModelComparison.
Record t := mk {
  ModelName : string;
  AvgTokensPerSec : float;
  AvgTotalTimeMs : float;
  TestResults : list BenchmarkResult.t
}.
End ModelComparison.

Definition models : list string :=
  ["llama3.2:1b"; "llama3.2:3b"; "gemma2:2b"; "qwen2.5:0.5b"].

Definition testCases : list TestCase.t := [
  TestCase.mk "Simple Reasoning"
    "Explain the concept of recursion in programming in one paragraph."
    "reasoning" 0;
  TestCase.mk "Code Generation"
    "Write a Python function to calculate the factorial of a number using recursion."
    "coding" 0;
  TestCase.mk "Mathematical Problem"
    "If a train travels at 60 mph for 2.5 hours, how far does it travel? Show your work."
    "math" 0;
  TestCase.mk "Creative Writing"
    "Write a short haiku about artificial intelligence."
    "creative" 0;
  TestCase.mk "Question Answering"
    "What is the capital of France and what is it famous for?"
    "qa" 0
].

Definition checkOllamaRunning : IO bool :=
  reply ← http_Get_tags;
  mret match reply with
       | TagsTransportError _ => false
       | TagsResponse statusCode _ => (statusCode =? 200)%Z
       end.

Definition checkModelAvailable (model : string) : IO bool :=
  reply ← http_Get_tags;
  mret match reply with
       | TagsTransportError _ => false
       | TagsResponse _ None => false
       | TagsResponse _ (Some result) =>
           existsb (λ m, String.eqb (OllamaModel.Name m) model)
                   (OllamaTagsResponse.Models result)
       end.

(** The [for] loop of this driver's [pullModel]: any error of the decoder,
    [io.EOF] included, leaves the loop, and the function then returns
    [false]. *)
Fixpoint pullProgress (items : list PullItem) : bool :=
  match items with
  | [] => false                        (* err != nil: break; return false *)
  | PullDecodeError _ :: _ => false    (* err != nil: break; return false *)
  | PullStatus status :: rest =>
      match status !! "status" with
      | Some (JString statusStr) =>
          (* status["status"] == "success" *)
          if String.eqb statusStr "success" then true else pullProgress rest
      | _ => pullProgress rest
      end
  end.

Definition pullModel (model : string) : IO bool :=
  reply ← http_Post_pull model;
  mret match reply with
       | PullTransportError _ => false
       | PullStream items => pullProgress items
       end.

Definition benchmarkResult (model : string) (test : TestCase.t)
    (reply : GenerateReply) : BenchmarkResult.t :=
  let result (err : string) :=
    BenchmarkResult.mk model (TestCase.Name test) (TestCase.Category test)
      0 0 0 0 0 "" false err in
  match reply with
  | GenMarshalError err => result (Sprintf_err "Failed to marshal request: " err)
  | GenSendError err => result (Sprintf_err "Failed to send request: " err)
  | GenReadError err => result (Sprintf_err "Failed to read response: " err)
  | GenParseError err => result (Sprintf_err "Failed to parse response: " err)
  | GenDecoded genResp totalTimeMs =>
      BenchmarkResult.mk model (TestCase.Name test) (TestCase.Category test)
        (* eval_count / (eval_duration in nanoseconds) * 10^9 *)
        (if (0 <? GenerateResponse.EvalDuration genResp)%Z
         then float64_of_int (GenerateResponse.EvalCount genResp)
              / float64_of_int (GenerateResponse.EvalDuration genResp) * 1e9
         else 0)%float
        (* approximate, using load + prompt eval time *)
        (if (0 <? GenerateResponse.LoadDuration genResp)%Z
            && (0 <? GenerateResponse.PromptEvalDuration genResp)%Z
         then float64_of_int (int64_add (GenerateResponse.LoadDuration genResp)
                                        (GenerateResponse.PromptEvalDuration genResp))
              / 1e6
         else 0)%float
        (GenerateResponse.EvalCount genResp)
        (GenerateResponse.PromptEvalCount genResp)
        (float64_of_int totalTimeMs)
        (GenerateResponse.Response genResp)
        true
        ""
  end.

Definition runBenchmark (model : string) (test : TestCase.t) : IO BenchmarkResult.t :=
  reply ← http_Post_generate (GenerateRequest.mk model (TestCase.Prompt test) false);
  mret (benchmarkResult model test reply).

Module Tally.
Record t := mk {
  results : list BenchmarkResult.t;
  totalTPS : float;
  totalTime : float;
  successCount : Z
}.
End Tally.

Definition tally (acc : Tally.t) (result : BenchmarkResult.t) : Tally.t :=
  let results := Tally.results acc ++ [result] in
  if BenchmarkResult.Success result then
    Tally.mk results
      (Tally.totalTPS acc + BenchmarkResult.TokensPerSecond result)%float
      (Tally.totalTime acc + BenchmarkResult.TotalTimeMs result)%float
      (int64_add (Tally.successCount acc) 1)
  else
    Tally.mk results (Tally.totalTPS acc) (Tally.totalTime acc)
      (Tally.successCount acc).

Definition summarize (model : string) (acc : Tally.t) : ModelComparison.t :=
  let successCount := Tally.successCount acc in
  let avgTPS :=
    if (0 <? successCount)%Z
    then (Tally.totalTPS acc / float64_of_int successCount)%float else 0%float in
  let avgTime :=
    if (0 <? successCount)%Z
    then (Tally.totalTime acc / float64_of_int successCount)%float else 0%float in
  ModelComparison.mk model avgTPS avgTime (Tally.results acc).

Definition testModel (model : string) : IO ModelComparison.t :=
  acc ← forM testCases
         (λ acc test, result ← runBenchmark model test; mret (tally acc result))
         (Tally.mk [] 0 0 0);
  mret (summarize model acc).

(** One iteration of [for _, model := range models]: a model that cannot be
    pulled leaves no comparison behind. *)
Definition benchmarkModel (comparisons : list ModelComparison.t) (model : string)
  : IO (list ModelComparison.t) :=
  available ← checkModelAvailable model;
  if negb available then
    pulled ← pullModel model;
    if negb pulled then mret comparisons
    else comparison ← testModel model; mret (comparisons ++ [comparison])
  else comparison ← testModel model; mret (comparisons ++ [comparison]).

(** [displayComparison]: the map [categories] collects the category of every
    result, failed or not. *)
Definition categoriesOf (comparisons : list ModelComparison.t) : gmap string bool :=
  foldl (λ categories comp,
           foldl (λ categories result,
                    <[BenchmarkResult.Category result := true]> categories)
                 categories (ModelComparison.TestResults comp))
        ∅ comparisons.

Definition categoryRows (category : string) (comparisons : list ModelComparison.t)
  : list (string * BenchmarkResult.t) :=
  foldl (λ rows comp,
           foldl (λ rows result,
                    if String.eqb (BenchmarkResult.Category result) category
                       && BenchmarkResult.Success result
                    then rows ++ [(ModelComparison.ModelName comp, result)] else rows)
                 rows (ModelComparison.TestResults comp))
        [] comparisons.

Definition bestStep (category : string) (modelName : string)
    (best : string * float) (result : BenchmarkResult.t) : string * float :=
  if String.eqb (BenchmarkResult.Category result) category
     && BenchmarkResult.Success result
     && (best.2 <? BenchmarkResult.TokensPerSecond result)%float
  then (modelName, BenchmarkResult.TokensPerSecond result)
  else best.

Definition bestInCategory (category : string) (comparisons : list ModelComparison.t)
  : string * float :=
  foldl (λ best comp,
           foldl (bestStep category (ModelComparison.ModelName comp)) best
                 (ModelComparison.TestResults comp))
        ("", 0%float) comparisons.

Definition bestLines (comparisons : list ModelComparison.t)
  : list (string * string * float) :=
  foldl (λ lines category,
           let best := bestInCategory category comparisons in
           if negb (String.eqb best.1 "")
           then lines ++ [(category, best.1, best.2)] else lines)
        [] (range_keys (categoriesOf comparisons)).

Definition main : IO (option (list ModelComparison.t)) :=
  running ← checkOllamaRunning;
  if negb running then mret None
  else comparisons ← forM models benchmarkModel []; mret (Some comparisons).

End Basic.

(** * Vocabulary of the properties

    The definitions below do not model code: they are the words in which the
    properties are stated, and the worlds and configurations at which they
    are tried. *)

(** ** Size tags *)

(** The text before the first ':' (all of it when there is none). *)
Fixpoint before_colon (s : string) : string :=
  match s with
  | EmptyString => EmptyString
  | String c rest =>
      if Ascii.eqb c ":"%char then EmptyString else String c (before_colon rest)
  end.

(** The text after the first ':', when there is one. *)
Fixpoint after_colon (s : string) : option string :=
  match s with
  | EmptyString => None
  | String c rest => if Ascii.eqb c ":"%char then Some rest else after_colon rest
  end.

(** The size tag in the specification's words: the whole remainder after
    the first ':', or "unknown". *)
Definition spec_size_tag (modelName : string) : string :=
  match after_colon modelName with
  | Some rest => rest
  | None => "unknown"
  end.

(** The tokens of the table of [estimateModelRAM], in the order of the
    checks. *)
Definition size_tokens : list string :=
  ["0.5b"; "0.6b"; "1b"; "1.3b"; "1.5b"; "1.7b"; "2b"; "3b"; "6.7b"; "7b";
   "8b"; "9b"; "13b"; "14b"; "27b"; "32b"; "33b"; "34b"; "70b"; "235b";
   "405b"; "671b"; "mini"; "medium"].

(** ** Worlds *)

(** The scripted replies never change; only the call counters do. *)
Definition same_script (w w' : World.t) : Prop :=
  World.tags w' = World.tags w ∧ World.pulls w' = World.pulls w ∧
  World.generates w' = World.generates w.

(** The replies to [k] consecutive generation calls, from call [n] on. *)
Definition generate_replies (w : World.t) (n k : nat) : list GenerateReply :=
  map (World.generates w) (seq n k).

(** A daemon on which exactly [names] are installed. *)
Definition world_installed (names : list string) : World.t :=
  World.mk
    (λ _, TagsResponse 200
            (Some (OllamaTagsResponse.mk (map (λ name, OllamaModel.mk name "" 0) names))))
    (λ _, PullStream []) (λ _, GenSendError "") 0 0 0.

(** A daemon that answers every pull with [reply]. *)
Definition world_pull (reply : PullReply) : World.t :=
  World.mk (λ _, TagsTransportError "") (λ _, reply)
           (λ _, GenSendError "") 0 0 0.

(** A daemon that answers every generation call with [genResp]. *)
Definition world_generate (genResp : GenerateResponse.t) (elapsedMs : Z) : World.t :=
  World.mk (λ _, TagsTransportError "") (λ _, PullTransportError "")
           (λ _, GenDecoded genResp elapsedMs) 0 0 0.

(** A daemon that has the model installed and answers every generation call
    at once with a JSON object without the fields of a generation response,
    such as an error object: it decodes, to zero counts and durations. *)
Definition world_zero : World.t :=
  World.mk
    (λ _, TagsResponse 200
            (Some (OllamaTagsResponse.mk [OllamaModel.mk "demo:3b" "" 0])))
    (λ _, PullStream [])
    (λ _, GenDecoded (GenerateResponse.mk "" "" "" false 0 0 0 0 0 0) 0)
    0 0 0.

(** The third generation call fails to decode, the others answer. *)
Definition world_malformed : World.t :=
  World.mk
    (λ _, TagsResponse 200
            (Some (OllamaTagsResponse.mk
                     [OllamaModel.mk "demo:3b" "" 0; OllamaModel.mk "demo:7b" "" 0])))
    (λ _, PullStream [])
    (λ n, if bool_decide (n = 2)
          then GenParseError "unexpected end of JSON input"
          else GenDecoded (GenerateResponse.mk "demo" "" "ok" true 0 5 3 7 10 1000000000) 12)
    0 0 0.

Definition config_demo : Smart.Config.t :=
  Smart.Config.mk [Smart.LLMFamily.mk "demo" true false]
    (Smart.ResourceLimits.mk 80 2) (Smart.TestSettings.mk false true false).

(** Two enabled families, the name of one a prefix of the other's. *)
Definition config_overlap : Smart.Config.t :=
  Smart.Config.mk
    [Smart.LLMFamily.mk "qwen2" true false; Smart.LLMFamily.mk "qwen2.5" true false]
    (Smart.ResourceLimits.mk 80 4) (Smart.TestSettings.mk true true false).

Definition config_admission : Smart.Config.t :=
  Smart.Config.mk [] (Smart.ResourceLimits.mk 80 4) (Smart.TestSettings.mk true true false).

Definition config_no_filter : Smart.Config.t :=
  Smart.Config.mk [] (Smart.ResourceLimits.mk 80 4) (Smart.TestSettings.mk true false false).

Definition sysInfo16 : Smart.SystemInfo.t := Smart.SystemInfo.mk 24 16 "arm64".

(** ** Aggregates *)

Definition float_sum (xs : list float) : float := foldl PrimFloat.add 0%float xs.

(** The arithmetic mean, in binary64 arithmetic; 0 for no value. *)
Definition mean (xs : list float) : float :=
  match xs with
  | [] => 0%float
  | _ => (float_sum xs / float64_of_int (Z.of_nat (length xs)))%float
  end.

Definition successes (results : list Smart.BenchmarkResult.t)
  : list Smart.BenchmarkResult.t :=
  List.filter Smart.BenchmarkResult.Success results.

(** What the battery leaves in the summary of [model] when the generation
    calls are answered by [replies]. *)
Definition battery_results (model : string) (replies : list GenerateReply)
  : list Smart.BenchmarkResult.t :=
  zip_with (Smart.benchmarkResult model) Smart.testCases replies.

(** The aggregates of a finalized summary. *)
Definition aggregates_ok (s : Smart.ModelSummary.t) : Prop :=
  let ok := successes (Smart.ModelSummary.TestResults s) in
  Smart.ModelSummary.AvgTokensPerSec s
    = mean (map Smart.BenchmarkResult.TokensPerSecond ok) ∧
  Smart.ModelSummary.AvgTotalTimeMs s
    = mean (map Smart.BenchmarkResult.TotalTimeMs ok) ∧
  (ok = [] → Smart.ModelSummary.AvgTokensPerSec s = 0%float ∧
             Smart.ModelSummary.AvgTotalTimeMs s = 0%float) ∧
  (Smart.ModelSummary.CanRun s = true ↔
     ∃ r, r ∈ Smart.ModelSummary.TestResults s ∧
          Smart.BenchmarkResult.Success r = true) ∧
  (length (Smart.ModelSummary.TestResults s) ≤ length Smart.testCases)%nat.

(** The part of the specification of the aggregates that fails, in its words: both
    averages are 0 if and only if no result succeeded. *)
Definition zero_iff_no_success (s : Smart.ModelSummary.t) : Prop :=
  (Smart.ModelSummary.AvgTokensPerSec s = 0%float ∧
   Smart.ModelSummary.AvgTotalTimeMs s = 0%float) ↔
  successes (Smart.ModelSummary.TestResults s) = [].

(** A summary as [main] appends it for [model], in a world where the
    generation calls are scripted by [w]: either the model was skipped at
    installation, or the whole battery ran, one result per test case. *)
Definition summary_of (w : World.t) (model : string) (s : Smart.ModelSummary.t) : Prop :=
  Smart.ModelSummary.ModelName s = model ∧
  ((∃ reason, reason ≠ "" ∧ s = Smart.ModelSummary.mk model "" 0 0 [] false reason) ∨
   (∃ n, s = Smart.summarize model
              (foldl Smart.tally (Smart.Tally.mk [] 0 0 0)
                 (battery_results model
                    (generate_replies w n (length Smart.testCases)))))).

Definition success10 : Smart.BenchmarkResult.t :=
  Smart.BenchmarkResult.mk "m:1b" "1b" "t1" "qa" 10 0 0 0 100 "" true "" 2.
Definition success20 : Smart.BenchmarkResult.t :=
  Smart.BenchmarkResult.mk "m:1b" "1b" "t2" "qa" 20 0 0 0 300 "" true "" 2.
Definition failure0 : Smart.BenchmarkResult.t :=
  Smart.BenchmarkResult.mk "m:1b" "1b" "t3" "qa" 0 0 0 0 0 "" false
    "Failed to send request: EOF" 0.


(** ** Pull streams *)

(** The status text of a decoded update, when it has one. *)
Definition status_text (status : gmap string JSONValue) : option string :=
  match status !! "status" with
  | Some (JString statusStr) => Some statusStr
  | _ => None
  end.

Definition status_update (text : string) : PullItem :=
  PullStatus {[ "status" := JString text ]}.

(** A status update whose text contains "success". *)
Definition signals_success (item : PullItem) : bool :=
  match item with
  | PullStatus status =>
      match status_text status with
      | Some statusStr => strings_Contains statusStr "success"
      | None => false
      end
  | PullDecodeError _ => false
  end.

(** A status update whose text is "success". *)
Definition says_success (item : PullItem) : bool :=
  match item with
  | PullStatus status =>
      match status_text status with
      | Some statusStr => String.eqb statusStr "success"
      | None => false
      end
  | PullDecodeError _ => false
  end.

Definition is_decode_error (item : PullItem) : bool :=
  match item with
  | PullDecodeError _ => true
  | PullStatus _ => false
  end.

(** The specification of a pull, in its words: success if and only if some status
    update contains "success" or the stream ends without error. *)
Definition pull_succeeds_as_claimed (reply : PullReply) : Prop :=
  match reply with
  | PullTransportError _ => False
  | PullStream items =>
      Exists (λ item, signals_success item = true) items ∨
      Forall (λ item, is_decode_error item = false) items
  end.

(** An item with [hit] is decoded before any decode error. *)
Definition met_first (hit : PullItem → bool) (items : list PullItem) : Prop :=
  ∃ before item after,
    items = before ++ item :: after ∧
    Forall (λ item, is_decode_error item = false) before ∧
    is_decode_error item = false ∧ hit item = true.

(** The shape shared by the two pull loops: stop with success at a hit, with
    failure at a decode error, with [at_end] at the end of the stream. *)
Fixpoint scan (hit : PullItem → bool) (at_end : bool) (items : list PullItem) : bool :=
  match items with
  | [] => at_end
  | item :: rest =>
      if is_decode_error item then false
      else if hit item then true else scan hit at_end rest
  end.

(** ** Rankings *)

Definition runnable (summaries : list Smart.ModelSummary.t) : list Smart.ModelSummary.t :=
  List.filter Smart.ModelSummary.CanRun summaries.

(** [a] comes before [b] in [l]. *)
Definition before {A} (l : list A) (a b : A) : Prop :=
  ∃ i j, (i < j)%nat ∧ l !! i = Some a ∧ l !! j = Some b.


Definition summary_first : Smart.ModelSummary.t :=
  Smart.ModelSummary.mk "gemma2:2b" "2b" 10 100 [] true "".

(** A model whose only successful result reports 0 tokens per second. *)
Definition result_zero_speed : Smart.BenchmarkResult.t :=
  Smart.BenchmarkResult.mk "demo:3b" "3b" "Question Answering" "qa"
    0 0 0 0 12 "" true "" 3.
Definition summary_zero_speed : Smart.ModelSummary.t :=
  Smart.ModelSummary.mk "demo:3b" "3b" 0 12 [result_zero_speed] true "".

Definition SF_not_nan (x : spec_float) : Prop := x ≠ S754_nan.

(** ** The catalog, the filter and the run *)

(** The names the daemon lists as installed. *)
Definition installed_names (tagsResp : OllamaTagsResponse.t) : list string :=
  map OllamaModel.Name (OllamaTagsResponse.Models tagsResp).

(** [family] contributes [model] to the catalog: it is enabled, and [model]
    is an installed name that starts with the family name or, when all
    variants are asked for, one of the reference variants of the family. *)
Definition contributes (tagsResp : OllamaTagsResponse.t)
    (family : Smart.LLMFamily.t) (model : string) : Prop :=
  Smart.LLMFamily.Enabled family = true ∧
  ((model ∈ installed_names tagsResp ∧
    strings_HasPrefix model (Smart.LLMFamily.Name family) = true) ∨
   (Smart.LLMFamily.TestAllVariants family = true ∧
    model ∈ Smart.getCommonVariants (Smart.LLMFamily.Name family))).


(** One round of the loop of [getOllamaLibraryModels] over the families, in
    its stages: the map of the installed names, the installed names that
    start with the family name, the reference variants not yet listed. *)
Definition installed_map (tagsResp : OllamaTagsResponse.t) : gmap string bool :=
  foldl (λ installed m, <[OllamaModel.Name m := true]> installed) ∅
        (OllamaTagsResponse.Models tagsResp).

Definition add_installed (keys : list string) (family : Smart.LLMFamily.t)
    (models : list string) : list string :=
  foldl (λ models modelName,
           if strings_HasPrefix modelName (Smart.LLMFamily.Name family)
           then models ++ [modelName] else models)
        models keys.

Definition add_variants (variants : list string) (models : list string) : list string :=
  foldl (λ models variant,
           let found := existsb (λ m, String.eqb m variant) models in
           if negb found then models ++ [variant] else models)
        models variants.

Definition family_round (keys : list string) (models : list string)
    (family : Smart.LLMFamily.t) : list string :=
  if negb (Smart.LLMFamily.Enabled family) then models
  else
    let models := add_installed keys family models in
    if Smart.LLMFamily.TestAllVariants family
    then add_variants (Smart.getCommonVariants (Smart.LLMFamily.Name family)) models
    else models.

(** The entries of the table of [getCommonVariants]. *)
Definition variants_table : list (string * list string) := [
  ("qwen2.5", ["qwen2.5:0.5b"; "qwen2.5:1.5b"; "qwen2.5:3b"; "qwen2.5:7b";
               "qwen2.5:14b"; "qwen2.5:32b"]);
  ("gemma2", ["gemma2:2b"; "gemma2:9b"; "gemma2:27b"]);
  ("llama3.2", ["llama3.2:1b"; "llama3.2:3b"]);
  ("llama3.1", ["llama3.1:8b"; "llama3.1:70b"; "llama3.1:405b"]);
  ("mistral", ["mistral:7b"; "mistral:latest"]);
  ("codellama", ["codellama:7b"; "codellama:13b"; "codellama:34b";
                 "codellama:70b"]);
  ("phi3", ["phi3:mini"; "phi3:medium"]);
  ("deepseek-coder", ["deepseek-coder:1.3b"; "deepseek-coder:6.7b";
                      "deepseek-coder:33b"])
].

(** Whether [model] passes the test of [filterModelsByResources]. *)
Definition fits (sysInfo : Smart.SystemInfo.t) (config : Smart.Config.t)
    (model : string) : bool :=
  negb (Smart.TestSettings.SkipIfInsufficientResources (Smart.Config.TestSettings config))
  || (int64_add (Smart.estimateModelRAM model)
                (Smart.ResourceLimits.MinFreeRAMGB (Smart.Config.ResourceLimits config))
      <=? Smart.SystemInfo.AvailableRAMGB sysInfo)%Z.

(** The number of results recorded in [summaries]. *)
Definition total_results (summaries : list Smart.ModelSummary.t) : nat :=
  sum_list (map (λ s, length (Smart.ModelSummary.TestResults s)) summaries).

(** The three ways [main] leaves a model. *)
Definition outcome (config : Smart.Config.t) (model : string)
    (s : Smart.ModelSummary.t) : Prop :=
  Smart.ModelSummary.ModelName s = model ∧
  ((Smart.ModelSummary.SkipReason s = "" ∧
    Smart.ModelSummary.ModelSize s = Smart.extractModelSize model ∧
    length (Smart.ModelSummary.TestResults s) = length Smart.testCases) ∨
   (Smart.TestSettings.AutoPullModels (Smart.Config.TestSettings config) = false ∧
    s = Smart.ModelSummary.mk model "" 0 0 [] false "Model not installed") ∨
   (Smart.TestSettings.AutoPullModels (Smart.Config.TestSettings config) = true ∧
    s = Smart.ModelSummary.mk model "" 0 0 [] false "Failed to pull model")).

(** ** The report *)

Definition summary_two_speeds : Smart.ModelSummary.t :=
  Smart.ModelSummary.mk "m:1b" "1b" 15 200 [success10; success20; failure0] true "".

(** A row of a category table: the model name and a result. *)
Definition speed (row : string * Smart.BenchmarkResult.t) : float :=
  Smart.BenchmarkResult.TokensPerSecond row.2.

(** The search for the best model, over the rows of the category table. *)
Definition bestRowStep (best : string * float) (row : string * Smart.BenchmarkResult.t)
  : string * float :=
  if (best.2 <? speed row)%float then (row.1, speed row) else best.

(** The rows a summary gives to the table of [category]. *)
Definition in_category (category : string) (r : Smart.BenchmarkResult.t) : bool :=
  String.eqb (Smart.BenchmarkResult.Category r) category
  && Smart.BenchmarkResult.Success r.

Definition rows_of (category : string) (s : Smart.ModelSummary.t)
  : list (string * Smart.BenchmarkResult.t) :=
  map (pair (Smart.ModelSummary.ModelName s))
      (List.filter (in_category category) (Smart.ModelSummary.TestResults s)).

(** [best] is what the search leaves on [rows]: no model when no row is
    above 0, else the first of the rows with the greatest speed. *)
Definition first_best (rows : list (string * Smart.BenchmarkResult.t))
    (best : string * float) : Prop :=
  (best = ("", 0%float) ∧ Forall (λ row, (0 <? speed row)%float = false) rows) ∨
  (∃ before row after,
     rows = before ++ row :: after ∧ best = (row.1, speed row) ∧
     (0 <? speed row)%float = true ∧
     Forall (λ row', (speed row' <? speed row)%float = true) before ∧
     Forall (λ row', (speed row <? speed row')%float = false) after).

(** ** The basic driver *)

Definition Basic_successes (results : list Basic.BenchmarkResult.t)
  : list Basic.BenchmarkResult.t :=
  List.filter Basic.BenchmarkResult.Success results.

(** A comparison as the basic driver appends it for [model]: one result for
    each test case, in the order of the battery, and the means over the
    successful results. *)
Definition comparison_of (model : string) (c : Basic.ModelComparison.t) : Prop :=
  let ok := Basic_successes (Basic.ModelComparison.TestResults c) in
  Basic.ModelComparison.ModelName c = model ∧
  map Basic.BenchmarkResult.Category (Basic.ModelComparison.TestResults c)
    = map Basic.TestCase.Category Basic.testCases ∧
  Basic.ModelComparison.AvgTokensPerSec c
    = mean (map Basic.BenchmarkResult.TokensPerSecond ok) ∧
  Basic.ModelComparison.AvgTotalTimeMs c
    = mean (map Basic.BenchmarkResult.TotalTimeMs ok).

(** A daemon that lists no model, answers every pull with success and
    refuses every generation call. *)
Definition world_refusing : World.t :=
  World.mk (λ _, TagsResponse 200 (Some (OllamaTagsResponse.mk [])))
           (λ _, PullStream [status_update "success"])
           (λ _, GenSendError "EOF") 0 0 0.

(** * General facts *)

Section Loops.
Context {A : Type}.

(** A loop that appends the elements passing a test is a filter. *)
Lemma foldl_snoc_filter (p : A → bool) (l acc : list A) :
  foldl (λ acc x, if p x then acc ++ [x] else acc) acc l = acc ++ List.filter p l.
Proof.
  revert acc. induction l as [|x l IH]; intros acc; simpl.
  - by rewrite app_nil_r.
  - rewrite IH. destruct (p x); simpl; [by rewrite <- app_assoc | done].
Qed.

Lemma elem_of_List_filter (p : A → bool) (l : list A) (x : A) :
  x ∈ List.filter p l ↔ x ∈ l ∧ p x = true.
Proof. rewrite !list_elem_of_In. apply filter_In. Qed.
End Loops.

(** * Sorting *)

Section Insertion.
Context {A : Type} (less : A → A → bool) (U : A → Prop).
Hypothesis asym : ∀ x y, U x → U y → less x y = true → less y x = false.
Hypothesis negtrans : ∀ x y z, U x → U y → U z →
  less x y = false → less y z = false → less x z = false.

Let R (a b : A) : Prop := less b a = false.

Lemma insert_by_Permutation (x : A) (l : list A) : insert_by less x l ≡ₚ x :: l.
Proof.
  induction l as [|y l IH]; simpl; [done|].
  destruct (less x y); [done|]. rewrite IH. apply Permutation_swap.
Qed.

Lemma insert_by_sorted (x : A) (l : list A) :
  U x → Forall U l → StronglySorted R l → StronglySorted R (insert_by less x l).
Proof.
  intros Ux Ul Hs. induction Hs as [|y l Hs IH Hy]; simpl.
  - repeat constructor.
  - apply Forall_cons in Ul as [Uy Ul].
    destruct (less x y) eqn:Hxy.
    + constructor; [by constructor|]. constructor.
      * by apply asym.
      * rewrite Forall_forall in Hy, Ul |- *. intros z Hz.
        apply (negtrans z y x); [by apply Ul|done|done|by apply Hy|by apply asym].
    + constructor; [by apply IH|].
      rewrite insert_by_Permutation. by constructor.
Qed.

Lemma insertion_sort_Permutation (l : list A) : insertion_sort less l ≡ₚ l.
Proof.
  unfold insertion_sort.
  assert (∀ acc, foldl (λ acc x, insert_by less x acc) acc l ≡ₚ acc ++ l) as G.
  { induction l as [|x l IH]; intros acc; simpl; [by rewrite app_nil_r|].
    rewrite IH, insert_by_Permutation. simpl. apply Permutation_middle. }
  apply (G []).
Qed.

Lemma insertion_sort_sorted (l : list A) :
  Forall U l → StronglySorted R (insertion_sort less l).
Proof.
  unfold insertion_sort. intros Ul.
  assert (∀ acc, Forall U acc → StronglySorted R acc →
            StronglySorted R (foldl (λ acc x, insert_by less x acc) acc l)) as G.
  { induction Ul as [|x l Ux Ul IH]; intros acc Uacc Hs; simpl; [done|].
    apply IH.
    - rewrite insert_by_Permutation. by constructor.
    - by apply insert_by_sorted. }
  apply G; constructor.
Qed.
End Insertion.

Lemma StronglySorted_sorted_by {A} (less : A → A → bool) (l : list A) :
  StronglySorted (λ a b, less b a = false) l → sorted_by less l.
Proof.
  intros Hs i j x y Hij Hi Hj. revert i j Hij Hi Hj.
  induction Hs as [|z l Hs IH Hz]; intros i j Hij Hi Hj; [done|].
  destruct j as [|j]; [lia|]. destruct i as [|i]; simpl in *.
  - injection Hi as ->. rewrite Forall_forall in Hz. apply Hz.
    by eapply list_elem_of_lookup_2.
  - apply (IH i j); [lia|done..].
Qed.

Lemma insertion_sort_sorted_by {A} (less : A → A → bool) (l : list A) :
  strict_weak_on less l → sorted_by less (insertion_sort less l).
Proof.
  intros [Hasym Hneg]. apply StronglySorted_sorted_by.
  apply (insertion_sort_sorted less (λ x, x ∈ l)); auto.
  by apply Forall_forall.
Qed.


(** * Comparisons of binary64 floats, through their specification *)

Lemma SFltb_asym (x y : spec_float) : SFltb x y = true → SFltb y x = false.
Proof.
  unfold SFltb.
  destruct x as [sx|sx| |sx mx ex], y as [sy|sy| |sy my ey]; simpl;
    try done; try (by destruct sx); try (by destruct sy); try (by destruct sx, sy).
  destruct sx, sy; try done;
    rewrite (Z.compare_antisym ex ey);
    destruct (ex ?= ey)%Z eqn:He; simpl; try done;
    change (PosDef.Pos.compare_cont Eq my mx) with (my ?= mx)%positive;
    change (PosDef.Pos.compare_cont Eq mx my) with (mx ?= my)%positive;
    rewrite (Pos.compare_antisym mx my); by destruct (mx ?= my)%positive.
Qed.

Lemma SFltb_negtrans (x y z : spec_float) :
  SF_not_nan x → SF_not_nan y → SF_not_nan z →
  SFltb x y = false → SFltb y z = false → SFltb x z = false.
Proof.
  unfold SFltb, SF_not_nan.
  destruct x as [sx|sx| |sx mx ex], y as [sy|sy| |sy my ey],
           z as [sz|sz| |sz mz ez]; simpl; try done;
    try (by destruct sx); try (by destruct sy); try (by destruct sz);
    try (by destruct sx, sy); try (by destruct sx, sz); try (by destruct sy, sz);
    try (by destruct sx, sy, sz).
  all: intros _ _ _.
  all: destruct sx, sy, sz; try done.
  all: change (PosDef.Pos.compare_cont Eq) with Pos.compare.
  all: destruct (Z.compare_spec ex ey), (Z.compare_spec ey ez),
         (Z.compare_spec ex ez); try done; try lia.
  all: destruct (Pos.compare_spec mx my), (Pos.compare_spec my mz),
         (Pos.compare_spec mx mz); simpl; try done; try lia.
Qed.

Lemma is_nan_Prim2SF (f : float) : is_nan f = false → SF_not_nan (Prim2SF f).
Proof.
  unfold is_nan, SF_not_nan. rewrite FloatAxioms.eqb_spec. intros H E. rewrite E in H. done.
Qed.

Lemma ltb_asym (x y : float) : (x <? y)%float = true → (y <? x)%float = false.
Proof. rewrite !FloatAxioms.ltb_spec. apply SFltb_asym. Qed.

Lemma ltb_negtrans (x y z : float) :
  is_nan x = false → is_nan y = false → is_nan z = false →
  (x <? y)%float = false → (y <? z)%float = false → (x <? z)%float = false.
Proof.
  rewrite !FloatAxioms.ltb_spec. intros Hx Hy Hz.
  apply SFltb_negtrans; by apply is_nan_Prim2SF.
Qed.

(** A float equal to zero, of either sign, is not above zero. *)
Lemma ltb_zero_of_eqb (x : float) :
  (x =? 0)%float = true → (0 <? x)%float = false.
Proof.
  rewrite FloatAxioms.eqb_spec, FloatAxioms.ltb_spec.
  change (Prim2SF 0%float) with (S754_zero false).
  by destruct (Prim2SF x) as [s|s| |s m e]; try destruct s.
Qed.

Lemma SFleb_of_not_ltb (x y : spec_float) :
  SF_not_nan x → SF_not_nan y → SFltb x y = false → SFleb y x = true.
Proof.
  unfold SFltb, SFleb, SF_not_nan.
  destruct x as [sx|sx| |sx mx ex], y as [sy|sy| |sy my ey]; simpl; try done;
    try (by destruct sx); try (by destruct sy); try (by destruct sx, sy).
  intros _ _. destruct sx, sy; try done.
  all: change (PosDef.Pos.compare_cont Eq) with Pos.compare.
  all: rewrite (Z.compare_antisym ex ey), (Pos.compare_antisym mx my).
  all: destruct (ex ?= ey)%Z; simpl; try done.
  all: by destruct (mx ?= my)%positive.
Qed.

Lemma leb_of_not_ltb (x y : float) :
  is_nan x = false → is_nan y = false →
  (x <? y)%float = false → (y <=? x)%float = true.
Proof.
  rewrite FloatAxioms.ltb_spec, FloatAxioms.leb_spec. intros Hx Hy.
  apply SFleb_of_not_ltb; by apply is_nan_Prim2SF.
Qed.

(** * The size tag and the footprint estimate *)

Lemma strings_Split_colon (s : string) :
  strings_Split s ":"%char =
  before_colon s :: match after_colon s with
                    | Some rest => strings_Split rest ":"%char
                    | None => []
                    end.
Proof.
  induction s as [|c s IH]; simpl; [done|].
  destruct (Ascii.eqb c ":"%char); [done|]. by rewrite IH.
Qed.

Lemma extractModelSize_unfold (modelName : string) :
  Smart.extractModelSize modelName =
  match after_colon modelName with
  | Some rest => before_colon rest
  | None => "unknown"
  end.
Proof.
  unfold Smart.extractModelSize. rewrite strings_Split_colon.
  destruct (after_colon modelName) as [rest|]; [|done].
  by rewrite strings_Split_colon.
Qed.

Lemma before_colon_no_colon (s : string) : after_colon s = None → before_colon s = s.
Proof.
  induction s as [|c s IH]; simpl; [done|].
  destruct (Ascii.eqb c ":"%char); [done|]. intros H. by rewrite IH.
Qed.

Lemma after_colon_app (family tag : string) :
  after_colon family = None →
  after_colon (String.append family (String ":"%char tag)) = Some tag.
Proof.
  induction family as [|c s IH]; simpl; [done|].
  destruct (Ascii.eqb c ":"%char); [done|]. apply IH.
Qed.

Lemma estimateModelRAM_default (modelName : string) :
  Forall (λ token, strings_Contains (Smart.extractModelSize modelName) token = false)
         size_tokens →
  Smart.estimateModelRAM modelName = 5%Z.
Proof.
  unfold size_tokens, Smart.estimateModelRAM. intros H.
  repeat (apply Forall_cons in H as [-> H]). done.
Qed.

(** C7 as stated fails: the size tag is not the whole remainder after the
    first ':'; [strings.Split] cuts at every ':' and the tag is the second
    piece, so it stops at the second ':'. *)
Lemma extractModelSize_not_remainder :
  Smart.extractModelSize "x:q4:70b" = "q4" ∧
  spec_size_tag "x:q4:70b" = "q4:70b" ∧
  ¬ (∀ modelName, Smart.extractModelSize modelName = spec_size_tag modelName).
Proof.
  split; [done|]. split; [done|]. intros H. by specialize (H "x:q4:70b").
Qed.

(** C7, amended: the size tag of an identifier is the text between its
    first ':' and its next ':' (or its end), and "unknown" when it has no
    ':'; it is the whole remainder after the first ':' when that remainder
    has no ':'. When no token of the table occurs in the tag,
    [estimateModelRAM] returns the default, 5. *)
Theorem extractModelSize_spec (modelName : string) :
  Smart.extractModelSize modelName =
    match after_colon modelName with
    | Some rest => before_colon rest
    | None => "unknown"
    end ∧
  (∀ rest, after_colon modelName = Some rest → after_colon rest = None →
     Smart.extractModelSize modelName = rest) ∧
  (Forall (λ token, strings_Contains (Smart.extractModelSize modelName) token = false)
          size_tokens →
   Smart.estimateModelRAM modelName = 5%Z).
Proof.
  split; [apply extractModelSize_unfold|]. split.
  - intros rest H1 H2. rewrite extractModelSize_unfold, H1.
    by apply before_colon_no_colon.
  - apply estimateModelRAM_default.
Qed.

Lemma extractModelSize_spec_witness :
  Smart.extractModelSize "qwen2.5:latest" = "latest" ∧
  Smart.estimateModelRAM "qwen2.5:latest" = 5%Z.
Proof.
  destruct (extractModelSize_spec "qwen2.5:latest") as (_ & H1 & H2). split.
  - by apply H1.
  - apply H2. vm_compute. repeat constructor.
Defined.

(** C9: for every family name [x] (the part of an identifier before its
    first ':', so a text without ':'), the estimates are strictly ordered:
    "x:70b" above "x:7b" above "x:1b". The tags are looked up in the order
    of the table: "70b" contains none of the tokens checked before it
    (it does not contain "7b"), and the estimates are 40, 5 and 2. *)
Theorem estimateModelRAM_monotone (x : string) :
  after_colon x = None →
  (Smart.estimateModelRAM (String.append x ":70b")
     > Smart.estimateModelRAM (String.append x ":7b")
   ∧ Smart.estimateModelRAM (String.append x ":7b")
     > Smart.estimateModelRAM (String.append x ":1b"))%Z.
Proof.
  intros Hx. unfold Smart.estimateModelRAM.
  rewrite !extractModelSize_unfold, !after_colon_app by done. by vm_compute.
Qed.

Lemma estimateModelRAM_monotone_witness :
  (Smart.estimateModelRAM "x:70b" > Smart.estimateModelRAM "x:7b"
   ∧ Smart.estimateModelRAM "x:7b" > Smart.estimateModelRAM "x:1b")%Z.
Proof. apply (estimateModelRAM_monotone "x"). reflexivity. Defined.

(** * Admission and catalog *)

Lemma int64_add_exact (a b : Z) :
  (int64_min <= a + b <= int64_max)%Z → int64_add a b = (a + b)%Z.
Proof.
  unfold int64_add, int64_wrap, int64_min, int64_max. intros H.
  rewrite Z.mod_small; lia.
Qed.

Lemma filterModelsByResources_filter models sysInfo config :
  Smart.TestSettings.SkipIfInsufficientResources (Smart.Config.TestSettings config) = true →
  Smart.filterModelsByResources models sysInfo config =
  List.filter
    (λ model,
       (int64_add (Smart.estimateModelRAM model)
                  (Smart.ResourceLimits.MinFreeRAMGB (Smart.Config.ResourceLimits config))
        <=? Smart.SystemInfo.AvailableRAMGB sysInfo)%Z)
    models.
Proof.
  intros Hflag. unfold Smart.filterModelsByResources. rewrite Hflag. simpl.
  apply (foldl_snoc_filter _ models []).
Qed.

Lemma estimateModelRAM_range (modelName : string) :
  (1 <= Smart.estimateModelRAM modelName <= 370)%Z.
Proof.
  unfold Smart.estimateModelRAM.
  repeat match goal with |- context [if ?b then _ else _] => destruct b end; lia.
Qed.

(** C4: with the flag "skip if insufficient resources" off, the filter
    returns the catalog unchanged. With the flag on, it keeps, in order, the
    variants with [estimateModelRAM variant + min_free_gb <= available_gb],
    the sum being the one the code computes on [int64]; for every margin up
    to [int64_max - 370] that sum is the sum of the integers, and a variant
    is admitted if and only if it is in the catalog and the inequality
    holds. With 16 GB available and a margin of 4 GB, a variant estimated at
    9 GB is admitted, one estimated at 13 GB or more is rejected. *)
Theorem filterModelsByResources_spec models sysInfo config :
  let flag := Smart.TestSettings.SkipIfInsufficientResources (Smart.Config.TestSettings config) in
  let min_free_gb := Smart.ResourceLimits.MinFreeRAMGB (Smart.Config.ResourceLimits config) in
  let available_gb := Smart.SystemInfo.AvailableRAMGB sysInfo in
  (flag = false → Smart.filterModelsByResources models sysInfo config = models) ∧
  (flag = true →
     Smart.filterModelsByResources models sysInfo config =
       List.filter
         (λ variant,
            (int64_add (Smart.estimateModelRAM variant) min_free_gb <=? available_gb)%Z)
         models) ∧
  (flag = true →
     (min_free_gb <= int64_max - 370)%Z → (int64_min <= min_free_gb)%Z →
     Smart.filterModelsByResources models sysInfo config =
       List.filter (λ variant, (Smart.estimateModelRAM variant + min_free_gb <=? available_gb)%Z) models
     ∧ ∀ variant,
         variant ∈ Smart.filterModelsByResources models sysInfo config ↔
         variant ∈ models ∧ (Smart.estimateModelRAM variant + min_free_gb <= available_gb)%Z) ∧
  (flag = true → min_free_gb = 4%Z → available_gb = 16%Z →
     ∀ variant, variant ∈ models →
       (Smart.estimateModelRAM variant = 9%Z →
          variant ∈ Smart.filterModelsByResources models sysInfo config) ∧
       (Smart.estimateModelRAM variant >= 13 →
          variant ∉ Smart.filterModelsByResources models sysInfo config)%Z).
Proof.
  intros flag min_free_gb available_gb.
  assert (flag = true → (min_free_gb <= int64_max - 370)%Z → (int64_min <= min_free_gb)%Z →
          Smart.filterModelsByResources models sysInfo config =
          List.filter (λ variant, (Smart.estimateModelRAM variant + min_free_gb <=? available_gb)%Z) models) as Hfilter.
  { intros Hflag Hhi Hlo. rewrite filterModelsByResources_filter by done.
    apply filter_ext. intros variant. fold min_free_gb available_gb.
    rewrite int64_add_exact; [done|].
    pose proof (estimateModelRAM_range variant). unfold int64_min, int64_max in *. lia. }
  split; [|split; [|split]].
  - intros Hflag. unfold Smart.filterModelsByResources. fold flag. by rewrite Hflag.
  - intros Hflag. by apply filterModelsByResources_filter.
  - intros Hflag Hhi Hlo. split; [by apply Hfilter|].
    intros variant. rewrite Hfilter by done.
    rewrite elem_of_List_filter, Z.leb_le. done.
  - intros Hflag Hmin Havail variant Hin.
    rewrite Hfilter; [|done|rewrite Hmin; unfold int64_max; lia|rewrite Hmin; unfold int64_min; lia].
    rewrite elem_of_List_filter, Z.leb_le, Hmin, Havail. split; [intros ->; split; [done|lia]|].
    intros Hge [_ Hle]. lia.
Qed.

Lemma filterModelsByResources_spec_witness :
  Smart.estimateModelRAM "qwen2.5:14b" = 9%Z ∧
  Smart.estimateModelRAM "llama3.1:70b" = 40%Z ∧
  ("qwen2.5:14b" ∈ Smart.filterModelsByResources
                     ["qwen2.5:14b"; "llama3.1:70b"] sysInfo16 config_admission) ∧
  ("llama3.1:70b" ∉ Smart.filterModelsByResources
                      ["qwen2.5:14b"; "llama3.1:70b"] sysInfo16 config_admission) ∧
  Smart.filterModelsByResources ["qwen2.5:14b"; "llama3.1:70b"] sysInfo16 config_no_filter
    = ["qwen2.5:14b"; "llama3.1:70b"].
Proof.
  destruct (filterModelsByResources_spec
              ["qwen2.5:14b"; "llama3.1:70b"] sysInfo16 config_admission)
    as (_ & _ & _ & Hinst).
  destruct (filterModelsByResources_spec
              ["qwen2.5:14b"; "llama3.1:70b"] sysInfo16 config_no_filter)
    as (Hoff & _).
  split; [reflexivity|]. split; [reflexivity|].
  split; [|split].
  - apply (Hinst eq_refl eq_refl eq_refl "qwen2.5:14b"); [left|reflexivity].
  - apply (Hinst eq_refl eq_refl eq_refl "llama3.1:70b"); [right; left|].
    vm_compute. discriminate.
  - apply Hoff. reflexivity.
Defined.

(** C1 at the failing input: with two enabled families whose names are both
    prefixes of an installed model, the catalog lists that model twice. The
    loop over the installed names appends without the test "only add if not
    already in list" that the loop over the reference variants makes. *)
Theorem getOllamaLibraryModels_duplicate :
  (Smart.getOllamaLibraryModels config_overlap (world_installed ["qwen2.5:7b"])).1
    = ["qwen2.5:7b"; "qwen2.5:7b"] ∧
  ¬ NoDup (Smart.getOllamaLibraryModels config_overlap (world_installed ["qwen2.5:7b"])).1.
Proof.
  assert ((Smart.getOllamaLibraryModels config_overlap (world_installed ["qwen2.5:7b"])).1
          = ["qwen2.5:7b"; "qwen2.5:7b"]) as ->; [by vm_compute|].
  split; [done|]. intros Hnd. apply NoDup_cons in Hnd as [Hnd _]. apply Hnd. left.
Qed.

(** X1: the catalog is sorted, whatever the configuration and the daemon. *)
Lemma getOllamaLibraryModels_sorted config w :
  StronglySorted String.le (Smart.getOllamaLibraryModels config w).1.
Proof.
  unfold Smart.getOllamaLibraryModels, mbind, IO_bind. simpl.
  destruct (World.tags w (World.tagsCalls w)) as [err|code [tagsResp|]]; simpl;
    try constructor.
  apply (StronglySorted_merge_sort String.le).
Qed.

(** * The executor *)

Lemma IO_bind_run {A B} (m : IO A) (f : A → IO B) (w : World.t) :
  (m ≫= f) w = f (m w).1 (m w).2.
Proof. unfold mbind, IO_bind. by destruct (m w). Qed.

Lemma same_script_trans w1 w2 w3 :
  same_script w1 w2 → same_script w2 w3 → same_script w1 w3.
Proof. unfold same_script. intros (-> & -> & ->) (-> & -> & ->). done. Qed.

Section SmartExecutor.
Import Smart.

Lemma runBenchmark_run model test w :
  runBenchmark model test w =
  (benchmarkResult model test (World.generates w (World.generateCalls w)),
   World.mk (World.tags w) (World.pulls w) (World.generates w)
            (World.tagsCalls w) (World.pullCalls w) (S (World.generateCalls w))).
Proof. done. Qed.

Lemma battery_run model (tests : list TestCase.t) acc w :
  forM tests (λ acc test, result ← runBenchmark model test; mret (tally acc result)) acc w =
  (foldl tally acc
     (zip_with (benchmarkResult model) tests
        (generate_replies w (World.generateCalls w) (length tests))),
   World.mk (World.tags w) (World.pulls w) (World.generates w)
            (World.tagsCalls w) (World.pullCalls w)
            (length tests + World.generateCalls w)).
Proof.
  revert acc w. induction tests as [|test tests IH]; intros acc w; simpl.
  - by destruct w.
  - rewrite IO_bind_run. rewrite (IO_bind_run (runBenchmark model test)).
    rewrite runBenchmark_run. simpl. rewrite IH. simpl.
    unfold generate_replies. do 2 f_equal. lia.
Qed.

Lemma tally_results rs acc :
  Tally.results (foldl tally acc rs) = Tally.results acc ++ rs.
Proof.
  revert acc. induction rs as [|r rs IH]; intros acc; simpl.
  - by rewrite app_nil_r.
  - rewrite IH. unfold tally. destruct (BenchmarkResult.Success r); simpl;
      by rewrite <- app_assoc.
Qed.

Lemma tally_totalTPS rs acc :
  Tally.totalTPS (foldl tally acc rs) =
  foldl PrimFloat.add (Tally.totalTPS acc)
        (map BenchmarkResult.TokensPerSecond (successes rs)).
Proof.
  revert acc. induction rs as [|r rs IH]; intros acc; simpl; [done|].
  rewrite IH. unfold tally. by destruct (BenchmarkResult.Success r).
Qed.

Lemma tally_totalTime rs acc :
  Tally.totalTime (foldl tally acc rs) =
  foldl PrimFloat.add (Tally.totalTime acc)
        (map BenchmarkResult.TotalTimeMs (successes rs)).
Proof.
  revert acc. induction rs as [|r rs IH]; intros acc; simpl; [done|].
  rewrite IH. unfold tally. by destruct (BenchmarkResult.Success r).
Qed.

Lemma successes_length rs : (length (successes rs) ≤ length rs)%nat.
Proof. apply filter_length_le. Qed.

Lemma tally_successCount rs acc :
  (0 <= Tally.successCount acc)%Z →
  (Tally.successCount acc + Z.of_nat (length rs) <= int64_max)%Z →
  Tally.successCount (foldl tally acc rs) =
  (Tally.successCount acc + Z.of_nat (length (successes rs)))%Z.
Proof.
  revert acc. induction rs as [|r rs IH]; intros acc H0 Hmax; simpl; [lia|].
  simpl in Hmax. pose proof (successes_length rs) as Hle.
  unfold tally at 2. destruct (BenchmarkResult.Success r) eqn:Hr.
  - rewrite IH; simpl; rewrite int64_add_exact; unfold int64_min, int64_max in *; lia.
  - rewrite IH; simpl; lia.
Qed.
End SmartExecutor.

Section SmartSummaries.
Import Smart.

Lemma testModel_run model w :
  testModel model w =
  (summarize model
     (foldl tally (Tally.mk [] 0 0 0)
        (battery_results model
           (generate_replies w (World.generateCalls w) (length testCases)))),
   World.mk (World.tags w) (World.pulls w) (World.generates w)
            (World.tagsCalls w) (World.pullCalls w)
            (length testCases + World.generateCalls w)).
Proof. unfold testModel. rewrite IO_bind_run, battery_run. done. Qed.

Lemma mean_unfold (x0 : list float) :
  mean x0 = if (0 <? Z.of_nat (length x0))%Z
            then (float_sum x0 / float64_of_int (Z.of_nat (length x0)))%float
            else 0%float.
Proof. by destruct x0. Qed.

Lemma summarize_aggregates model rs :
  (length rs ≤ length testCases)%nat →
  aggregates_ok (summarize model (foldl tally (Tally.mk [] 0 0 0) rs)).
Proof.
  intros Hlen. unfold aggregates_ok, summarize. simpl.
  rewrite tally_results, tally_totalTPS, tally_totalTime. simpl.
  rewrite tally_successCount; simpl; [|lia|].
  2:{ simpl in Hlen. unfold int64_max. lia. }
  fold (successes rs). rewrite !mean_unfold, !length_map. unfold float_sum.
  split; [done|]. split; [done|]. split; [by intros ->|]. split; [|done].
  rewrite Z.ltb_lt. split.
  - intros Hpos. destruct (successes rs) as [|r ok] eqn:Hok; [simpl in Hpos; lia|].
    exists r. apply (elem_of_List_filter BenchmarkResult.Success rs r).
    fold (successes rs). rewrite Hok. left.
  - intros (r & Hr & Hs).
    assert (r ∈ successes rs) as Hin by by apply elem_of_List_filter.
    destruct (successes rs); [by apply elem_of_nil in Hin|simpl; lia].
Qed.

Lemma battery_results_length model replies :
  (length (battery_results model replies) ≤ length testCases)%nat.
Proof. unfold battery_results. rewrite length_zip_with. lia. Qed.

Lemma testModel_summary_of model w :
  summary_of w model (testModel model w).1 ∧ same_script w (testModel model w).2.
Proof.
  rewrite testModel_run. simpl. split; [|done]. split; [done|]. right. eauto.
Qed.

Lemma checkModelInstalled_script model w :
  same_script w (checkModelInstalled model w).2.
Proof. done. Qed.

Lemma pullModel_script model w : same_script w (pullModel model w).2.
Proof. done. Qed.

Lemma summary_of_script w w' model s :
  same_script w w' → summary_of w' model s → summary_of w model s.
Proof.
  intros (_ & _ & Hg) [Hn Hs]. split; [done|].
  destruct Hs as [Hs|[n Hs]]; [by left|right]. exists n.
  unfold generate_replies in *. by rewrite <- Hg.
Qed.

Lemma benchmarkModel_run config summaries model w :
  ∃ s, (benchmarkModel config summaries model w).1 = summaries ++ [s] ∧
       summary_of w model s ∧
       same_script w (benchmarkModel config summaries model w).2.
Proof.
  unfold benchmarkModel. rewrite IO_bind_run.
  pose proof (checkModelInstalled_script model w) as H1.
  destruct (checkModelInstalled model w) as [installed w1]. simpl in *.
  assert (∀ w2, same_script w w2 →
     ∃ s, ((summary ← testModel model; mret (summaries ++ [summary])) w2).1
          = summaries ++ [s] ∧ summary_of w model s ∧
          same_script w ((summary ← testModel model; mret (summaries ++ [summary])) w2).2)
    as Htest.
  { intros w2 H2. rewrite IO_bind_run. simpl.
    destruct (testModel_summary_of model w2) as [Hs Hw].
    exists (testModel model w2).1. split; [done|]. split.
    - by eapply summary_of_script.
    - by eapply same_script_trans. }
  destruct installed; simpl; [by apply Htest|].
  destruct (TestSettings.AutoPullModels (Config.TestSettings config)).
  - rewrite IO_bind_run. pose proof (pullModel_script model w1) as H2.
    destruct (pullModel model w1) as [pulled w2]. simpl in *.
    destruct pulled; simpl.
    + apply Htest. by eapply same_script_trans.
    + eexists. split; [done|]. split; [|by eapply same_script_trans].
      split; [done|]. left. eexists. split; [|reflexivity]. done.
  - eexists. split; [done|]. split; [|done]. split; [done|]. left. eexists. split; [|reflexivity]. done.
Qed.

Lemma runBenchmarks_run config models summaries w :
  ∃ new, (forM models (benchmarkModel config) summaries w).1 = summaries ++ new ∧
         Forall2 (summary_of w) models new.
Proof.
  revert summaries w. induction models as [|model models IH]; intros summaries w; simpl.
  - exists []. by rewrite app_nil_r.
  - rewrite IO_bind_run.
    destruct (benchmarkModel_run config summaries model w) as (s & -> & Hs & Hw).
    destruct (IH (summaries ++ [s]) (benchmarkModel config summaries model w).2)
      as (new & -> & Hnew).
    exists (s :: new). split; [by rewrite <- app_assoc|].
    constructor; [done|].
    eapply Forall2_impl; [done|]. intros m s' Hs'. by eapply summary_of_script.
Qed.

Lemma summary_of_aggregates w model s : summary_of w model s → aggregates_ok s.
Proof.
  intros [_ [(reason & _ & ->)|[n ->]]].
  - unfold aggregates_ok. simpl. split; [done|]. split; [done|]. split; [done|].
    split; [|lia]. split; [done|]. intros (r & Hr & _). by apply elem_of_nil in Hr.
  - apply summarize_aggregates, battery_results_length.
Qed.

Lemma summarize_TestResults model rs :
  ModelSummary.TestResults (summarize model (foldl tally (Tally.mk [] 0 0 0) rs)) = rs.
Proof. unfold summarize. simpl. by rewrite tally_results. Qed.
End SmartSummaries.

(** ** Aggregation *)

(** C5 as stated fails in one part: "both averages are 0 if and only if
    there were zero successful results". A response that decodes without an
    evaluation duration is a success with 0 tokens per second, and a call
    answered within a millisecond has a total time of 0 ms: in [world_zero]
    the five results of "demo:3b" succeed and both averages are 0. *)
Lemma zero_averages_with_successes :
  ¬ (∀ config models w,
       Forall zero_iff_no_success (Smart.runBenchmarks config models w).1).
Proof.
  intros H. specialize (H config_demo ["demo:3b"] world_zero).
  destruct (Smart.runBenchmarks config_demo ["demo:3b"] world_zero).1
    as [|s rest] eqn:E; vm_compute in E; [done|].
  injection E as <- _. apply Forall_cons in H as [[H _] _].
  specialize (H (conj eq_refl eq_refl)). by vm_compute in H.
Qed.

(** C5, amended: in every summary a run produces, the average tokens per
    second and the average total time are the arithmetic means (in binary64
    arithmetic, summed in the order of the battery) over the successful
    results only; both are 0 when no result succeeded; [CanRun] is true if
    and only if at least one result succeeded; and there are at most as many
    results as test cases in the battery. The results success(10 t/s),
    success(20 t/s), failure aggregate to 15 t/s. *)
Theorem summaries_aggregates config models w :
  Forall aggregates_ok (Smart.runBenchmarks config models w).1 ∧
  Smart.ModelSummary.AvgTokensPerSec
    (Smart.summarize "m:1b"
       (foldl Smart.tally (Smart.Tally.mk [] 0 0 0) [success10; success20; failure0]))
  = 15%float.
Proof.
  split; [|done]. unfold Smart.runBenchmarks.
  destruct (runBenchmarks_run config models [] w) as (new & -> & Hnew). simpl.
  induction Hnew as [|model s models new Hs _ IH]; constructor; [|done].
  by eapply summary_of_aggregates.
Qed.

(** ** Resilience *)




(** ** Metrics *)

(** C8: in both drivers, for a generation response that decodes, the
    tokens per second are [eval_count / eval_duration * 1e9] when the
    evaluation duration is positive and 0 otherwise, so that nothing is
    divided by a zero duration; the time to first token is
    [(load_duration + prompt_eval_duration) / 1e6] when both durations are
    positive and 0 otherwise. The operations are those of [float64]; the sum
    of the durations is the one of [int64], the sum of the integers as long
    as it fits. *)
Theorem runBenchmark_metrics model test test' w genResp elapsedMs :
  World.generates w (World.generateCalls w) = GenDecoded genResp elapsedMs →
  let eval_count := GenerateResponse.EvalCount genResp in
  let eval_duration := GenerateResponse.EvalDuration genResp in
  let load_duration := GenerateResponse.LoadDuration genResp in
  let prompt_eval_duration := GenerateResponse.PromptEvalDuration genResp in
  let smart := (Smart.runBenchmark model test w).1 in
  let basic := (Basic.runBenchmark model test' w).1 in
  ((0 < eval_duration)%Z →
     Smart.BenchmarkResult.TokensPerSecond smart
       = (float64_of_int eval_count / float64_of_int eval_duration * 1e9)%float ∧
     Basic.BenchmarkResult.TokensPerSecond basic
       = (float64_of_int eval_count / float64_of_int eval_duration * 1e9)%float) ∧
  ((eval_duration <= 0)%Z →
     Smart.BenchmarkResult.TokensPerSecond smart = 0%float ∧
     Basic.BenchmarkResult.TokensPerSecond basic = 0%float) ∧
  ((0 < load_duration)%Z ∧ (0 < prompt_eval_duration)%Z →
     Smart.BenchmarkResult.TimeToFirstToken smart
       = (float64_of_int (int64_add load_duration prompt_eval_duration) / 1e6)%float ∧
     Basic.BenchmarkResult.TimeToFirstToken basic
       = (float64_of_int (int64_add load_duration prompt_eval_duration) / 1e6)%float) ∧
  ((0 < load_duration)%Z ∧ (0 < prompt_eval_duration)%Z →
     (load_duration + prompt_eval_duration <= int64_max)%Z →
     int64_add load_duration prompt_eval_duration
       = (load_duration + prompt_eval_duration)%Z) ∧
  (¬ ((0 < load_duration)%Z ∧ (0 < prompt_eval_duration)%Z) →
     Smart.BenchmarkResult.TimeToFirstToken smart = 0%float ∧
     Basic.BenchmarkResult.TimeToFirstToken basic = 0%float).
Proof.
  intros Hreply. cbv zeta. unfold Smart.runBenchmark, Basic.runBenchmark.
  rewrite !IO_bind_run. simpl. rewrite Hreply. simpl.
  destruct (Z.ltb_spec 0 (GenerateResponse.EvalDuration genResp));
  destruct (Z.ltb_spec 0 (GenerateResponse.LoadDuration genResp));
  destruct (Z.ltb_spec 0 (GenerateResponse.PromptEvalDuration genResp)); simpl;
    repeat split; intros; try done; try lia;
    try (apply int64_add_exact; unfold int64_min, int64_max in *; lia);
    try (exfalso; tauto).
Qed.

Lemma runBenchmark_metrics_witness :
  let genResp := GenerateResponse.mk "demo:3b" "" "text" true 0 3000000 4 5000000 10 1000000000 in
  let w := world_generate genResp 12 in
  let test := Smart.TestCase.mk "t" "p" "qa" in
  let test' := Basic.TestCase.mk "t" "p" "qa" 0 in
  Smart.BenchmarkResult.TokensPerSecond (Smart.runBenchmark "demo:3b" test w).1 = 10%float ∧
  Basic.BenchmarkResult.TimeToFirstToken (Basic.runBenchmark "demo:3b" test' w).1 = 8%float.
Proof.
  intros genResp w test test'.
  destruct (runBenchmark_metrics "demo:3b" test test' w genResp 12 eq_refl)
    as (Htps & _ & Httft & _).
  split.
  - destruct Htps as [-> _]; [reflexivity|]. reflexivity.
  - destruct Httft as [_ ->]; [split; reflexivity|]. reflexivity.
Defined.

(** * Pulling a model *)

(** C3 as stated fails for the [pullModel] of the basic driver: it reports
    failure when the stream ends, without any error, before a "success"
    status; here, on the empty stream. *)
Lemma Basic_pullModel_end_of_stream :
  (Basic.pullModel "llama3.2:1b" (world_pull (PullStream []))).1 = false ∧
  pull_succeeds_as_claimed (PullStream []) ∧
  ¬ (∀ model w,
       (Basic.pullModel model w).1 = true ↔
       pull_succeeds_as_claimed (World.pulls w (World.pullCalls w))).
Proof.
  split; [done|]. split; [right; constructor|].
  intros H. specialize (H "llama3.2:1b" (world_pull (PullStream []))).
  destruct H as [_ H]. simpl in H. discriminate H. right. constructor.
Qed.

Section PullLoop.
Context (hit : PullItem → bool) (at_end : bool).

Lemma met_first_cons item items :
  is_decode_error item = false → hit item = false →
  met_first hit (item :: items) ↔ met_first hit items.
Proof.
  intros He Hh. split.
  - intros (before & item' & after & Heq & Hb & Hi & Hhit).
    destruct before as [|b before]; simpl in Heq.
    + injection Heq as <- <-. congruence.
    + injection Heq as <- ->. apply Forall_cons in Hb as [_ Hb].
      by exists before, item', after.
  - intros (before & item' & after & -> & Hb & Hi & Hhit).
    exists (item :: before), item', after. split; [done|]. split; [|done].
    by constructor.
Qed.

Lemma scan_spec items :
  scan hit at_end items = true ↔
  met_first hit items ∨
  (at_end = true ∧ Forall (λ item, is_decode_error item = false) items).
Proof.
  induction items as [|item items IH]; simpl.
  - split; [intros ->; right; by split|].
    intros [(before & item & after & Heq & _)|[-> _]]; [|done].
    by destruct before.
  - destruct (is_decode_error item) eqn:He.
    + split; [done|].
      intros [(before & item' & after & Heq & Hb & Hi & _)|[_ Hall]].
      * destruct before as [|b before]; simpl in Heq; injection Heq as <- ->.
        -- congruence.
        -- apply Forall_cons in Hb as [Hb _]. congruence.
      * apply Forall_cons in Hall as [Hall _]. congruence.
    + destruct (hit item) eqn:Hh.
      * split; [intros _; left|done]. by exists [], item, items.
      * rewrite IH, met_first_cons by done. rewrite Forall_cons. tauto.
Qed.
End PullLoop.

Lemma Smart_pullProgress_scan items :
  Smart.pullProgress items = scan signals_success true items.
Proof.
  induction items as [|[status|err] items IH]; simpl; [done| |done].
  unfold status_text. rewrite IH.
  by destruct (status !! "status") as [[]|].
Qed.

Lemma Basic_pullProgress_scan items :
  Basic.pullProgress items = scan says_success false items.
Proof.
  induction items as [|[status|err] items IH]; simpl; [done| |done].
  unfold status_text. rewrite IH.
  by destruct (status !! "status") as [[]|].
Qed.

(** C3, amended: the [pullModel] of the configuration-driven driver returns
    success if and only if the request meets no transport error and either
    a status update whose status text contains "success" is decoded before
    any decode error, or the stream ends without a decode error. The
    [pullModel] of the basic driver returns success if and only if the
    request meets no transport error and a status update whose status text
    is "success" is decoded before any decode error; it returns failure when
    the stream ends without one. In both, a transport error, or a decode
    error met before the status that signals success, gives failure. *)
Theorem pullModel_spec model w :
  ((Smart.pullModel model w).1 = true ↔
     ∃ items, World.pulls w (World.pullCalls w) = PullStream items ∧
       (met_first signals_success items ∨
        Forall (λ item, is_decode_error item = false) items)) ∧
  ((Basic.pullModel model w).1 = true ↔
     ∃ items, World.pulls w (World.pullCalls w) = PullStream items ∧
       met_first says_success items).
Proof.
  unfold Smart.pullModel, Basic.pullModel, mbind, IO_bind; simpl.
  destruct (World.pulls w (World.pullCalls w)) as [err|items]; simpl.
  - split; (split; [done|]); by intros (items & ? & _).
  - rewrite Smart_pullProgress_scan, Basic_pullProgress_scan, !scan_spec. split.
    + split.
      * intros [H|[_ H]]; exists items; auto.
      * intros (items' & [= <-] & [H|H]); auto.
    + split.
      * intros [H|[? _]]; [|done]. by exists items.
      * intros (items' & [= <-] & H). by left.
Qed.

Lemma pullModel_spec_witness :
  (Smart.pullModel "llama3.2:1b"
     (world_pull (PullStream [status_update "pulling manifest";
                              status_update "success"]))).1 = true ∧
  (Basic.pullModel "llama3.2:1b"
     (world_pull (PullStream [status_update "pulling manifest";
                              status_update "success"]))).1 = true.
Proof.
  set (items := [status_update "pulling manifest"; status_update "success"]).
  destruct (pullModel_spec "llama3.2:1b" (world_pull (PullStream items)))
    as [[_ Hsmart] [_ Hbasic]].
  assert (met_first says_success items ∧ met_first signals_success items) as [H1 H2].
  { split; exists [status_update "pulling manifest"], (status_update "success"), [];
      (split; [reflexivity|]); (split; [by repeat constructor|]); by split. }
  split.
  - apply Hsmart. exists items. split; [reflexivity|]. by left.
  - apply Hbasic. exists items. by split.
Defined.

(** * The report *)

Lemma foldl_snoc_map_filter {A B} (p : A → bool) (f : A → B) (l : list A) (acc : list B) :
  foldl (λ acc x, if p x then acc ++ [f x] else acc) acc l
  = acc ++ map f (List.filter p l).
Proof.
  revert acc. induction l as [|x l IH]; intros acc; simpl.
  - by rewrite app_nil_r.
  - rewrite IH. destruct (p x); simpl; [by rewrite <- app_assoc | done].
Qed.

Lemma elem_of_range_keys (m : gmap string bool) (k : string) :
  k ∈ range_keys m ↔ is_Some (m !! k).
Proof.
  unfold range_keys. rewrite list_elem_of_fmap. split.
  - intros ([k' v] & -> & Hin). apply elem_of_map_to_list in Hin. by exists v.
  - intros [v Hv]. exists (k, v). split; [done|]. by apply elem_of_map_to_list.
Qed.

Section SmartDisplay.
Import Smart.
Context `{SortSlice}.

Lemma overallRanking_Permutation summaries :
  overallRanking summaries ≡ₚ runnable summaries.
Proof.
  unfold overallRanking. rewrite sort_Slice_Permutation.
  by rewrite (foldl_snoc_filter ModelSummary.CanRun summaries []).
Qed.

Lemma elem_of_overallRanking summaries s :
  s ∈ overallRanking summaries ↔ s ∈ summaries ∧ ModelSummary.CanRun s = true.
Proof. rewrite overallRanking_Permutation. apply elem_of_List_filter. Qed.

Lemma fasterThan_strict_weak (l : list ModelSummary.t) :
  Forall (λ s, is_nan (ModelSummary.AvgTokensPerSec s) = false) l →
  strict_weak_on fasterThan l.
Proof.
  rewrite Forall_forall. intros Hnan. unfold fasterThan. split.
  - intros x y _ _. apply ltb_asym.
  - intros x y z Hx Hy Hz H1 H2.
    apply (ltb_negtrans _ (ModelSummary.AvgTokensPerSec y)); auto.
Qed.

(** The categories of the breakdown: those of the successful results. *)
Lemma categoriesOf_lookup successful category :
  is_Some (categoriesOf successful !! category) ↔
  ∃ s r, s ∈ successful ∧ r ∈ ModelSummary.TestResults s ∧
         BenchmarkResult.Success r = true ∧ BenchmarkResult.Category r = category.
Proof.
  unfold categoriesOf.
  set (inner := λ (categories : gmap string bool) (r : BenchmarkResult.t),
         if BenchmarkResult.Success r
         then <[BenchmarkResult.Category r := true]> categories else categories).
  assert (∀ rs (m : gmap string bool),
            is_Some (foldl inner m rs !! category) ↔
            is_Some (m !! category) ∨
            ∃ r, r ∈ rs ∧ BenchmarkResult.Success r = true ∧
                 BenchmarkResult.Category r = category) as Hinner.
  { induction rs as [|r rs IH]; intros m; simpl.
    - split; [by left|]. intros [?|(r & Hr & _)]; [done|]. by apply elem_of_nil in Hr.
    - rewrite IH. unfold inner. setoid_rewrite elem_of_cons.
      destruct (BenchmarkResult.Success r) eqn:Hs.
      + rewrite lookup_insert_is_Some. split.
        * intros [[Hc|[_ ?]]|(r' & ? & ? & ?)]; eauto 10.
        * intros [?|(r' & [->|?] & ? & ?)]; eauto 10.
          destruct (decide (BenchmarkResult.Category r = category)); eauto.
      + split.
        * intros [?|(r' & ? & ? & ?)]; eauto 10.
        * intros [?|(r' & [->|?] & ? & ?)]; eauto 10. congruence. }
  assert (∀ ss (m : gmap string bool),
            is_Some (foldl (λ categories s,
                        foldl inner categories (ModelSummary.TestResults s)) m ss
                     !! category) ↔
            is_Some (m !! category) ∨
            ∃ s r, s ∈ ss ∧ r ∈ ModelSummary.TestResults s ∧
                   BenchmarkResult.Success r = true ∧
                   BenchmarkResult.Category r = category) as Houter.
  { induction ss as [|s ss IH]; intros m; simpl.
    - split; [by left|]. intros [?|(s & r & Hs & _)]; [done|]. by apply elem_of_nil in Hs.
    - rewrite IH, Hinner. setoid_rewrite elem_of_cons. split.
      + intros [[?|(r & ? & ? & ?)]|(s' & r & ? & ? & ? & ?)]; eauto 10.
      + intros [?|(s' & r & [->|?] & ? & ? & ?)]; eauto 10. }
  rewrite Houter, lookup_empty. split; [intros [[? ?]|?]; done|by right].
Qed.

(** A category in which no successful result is above zero has no best
    model. *)
Lemma bestInCategory_zero successful category :
  (∀ s r, s ∈ successful → r ∈ ModelSummary.TestResults s →
          BenchmarkResult.Category r = category →
          BenchmarkResult.Success r = true →
          (BenchmarkResult.TokensPerSecond r =? 0)%float = true) →
  bestInCategory category successful = ("", 0%float).
Proof.
  unfold bestInCategory. intros Hzero.
  assert (∀ name rs, (∀ r, r ∈ rs → BenchmarkResult.Category r = category →
                       BenchmarkResult.Success r = true →
                       (BenchmarkResult.TokensPerSecond r =? 0)%float = true) →
            foldl (bestStep category name) ("", 0%float) rs = ("", 0%float)) as Hinner.
  { intros name. induction rs as [|r rs IH]; intros Hrs; simpl; [done|].
    assert (bestStep category name ("", 0%float) r = ("", 0%float)) as ->.
    { unfold bestStep. simpl.
      destruct (String.eqb_spec (BenchmarkResult.Category r) category) as [Hc|?];
        simpl; [|done].
      destruct (BenchmarkResult.Success r) eqn:Hs; simpl; [|done].
      rewrite ltb_zero_of_eqb; [done|]. apply Hrs; [left|done|done]. }
    apply IH. intros r' Hr'. apply Hrs. by right. }
  revert Hzero. induction successful as [|s ss IH]; intros Hzero; simpl; [done|].
  rewrite Hinner.
  - apply IH. intros s' r' Hs'. apply Hzero. by right.
  - intros r' Hr'. apply (Hzero s); [left|done].
Qed.
End SmartDisplay.

Section SmartBest.
Import Smart.

Lemma bestLines_unfold successful :
  bestLines successful =
  map (λ category, (category, (bestInCategory category successful).1,
                    (bestInCategory category successful).2))
      (List.filter (λ category,
                      negb (String.eqb (bestInCategory category successful).1 ""))
                   (range_keys (categoriesOf successful))).
Proof.
  unfold bestLines.
  apply (foldl_snoc_map_filter
           (λ category, negb (String.eqb (bestInCategory category successful).1 ""))
           (λ category, (category, (bestInCategory category successful).1,
                         (bestInCategory category successful).2))
           (range_keys (categoriesOf successful)) []).
Qed.

Lemma elem_of_bestLines successful category model speed :
  (category, model, speed) ∈ bestLines successful →
  bestInCategory category successful = (model, speed) ∧ model ≠ "".
Proof.
  rewrite bestLines_unfold, list_elem_of_fmap.
  intros (c & [= -> -> ->] & Hin). apply elem_of_List_filter in Hin as [_ Hne].
  split; [by destruct (bestInCategory c successful)|].
  intros Heq. by rewrite Heq in Hne.
Qed.

Lemma bestStep_cases category name best r :
  bestStep category name best r = best ∨
  (bestStep category name best r = (name, BenchmarkResult.TokensPerSecond r) ∧
   BenchmarkResult.Category r = category ∧ BenchmarkResult.Success r = true ∧
   (best.2 <? BenchmarkResult.TokensPerSecond r)%float = true).
Proof.
  unfold bestStep.
  destruct (String.eqb_spec (BenchmarkResult.Category r) category); simpl; [|by left].
  destruct (BenchmarkResult.Success r); simpl; [|by left].
  destruct (best.2 <? BenchmarkResult.TokensPerSecond r)%float; [by right|by left].
Qed.
End SmartBest.

Section BasicBest.
Import Basic.

Lemma Basic_categoriesOf_lookup comparisons category :
  is_Some (categoriesOf comparisons !! category) ↔
  ∃ comp r, comp ∈ comparisons ∧ r ∈ ModelComparison.TestResults comp ∧
            BenchmarkResult.Category r = category.
Proof.
  unfold categoriesOf.
  set (inner := λ (categories : gmap string bool) (r : BenchmarkResult.t),
         <[BenchmarkResult.Category r := true]> categories).
  assert (∀ rs (m : gmap string bool),
            is_Some (foldl inner m rs !! category) ↔
            is_Some (m !! category) ∨
            ∃ r, r ∈ rs ∧ BenchmarkResult.Category r = category) as Hinner.
  { induction rs as [|r rs IH]; intros m; simpl.
    - split; [by left|]. intros [?|(r & Hr & _)]; [done|]. by apply elem_of_nil in Hr.
    - rewrite IH. unfold inner. setoid_rewrite elem_of_cons.
      rewrite lookup_insert_is_Some. split.
      + intros [[Hc|[_ ?]]|(r' & ? & ?)]; eauto 10.
      + intros [?|(r' & [->|?] & ?)]; eauto 10.
        destruct (decide (BenchmarkResult.Category r = category)); eauto. }
  assert (∀ cs (m : gmap string bool),
            is_Some (foldl (λ categories comp,
                        foldl inner categories (ModelComparison.TestResults comp)) m cs
                     !! category) ↔
            is_Some (m !! category) ∨
            ∃ comp r, comp ∈ cs ∧ r ∈ ModelComparison.TestResults comp ∧
                      BenchmarkResult.Category r = category) as Houter.
  { induction cs as [|c cs IH]; intros m; simpl.
    - split; [by left|]. intros [?|(c & r & Hc & _)]; [done|]. by apply elem_of_nil in Hc.
    - rewrite IH, Hinner. setoid_rewrite elem_of_cons. split.
      + intros [[?|(r & ? & ?)]|(c' & r & ? & ? & ?)]; eauto 10.
      + intros [?|(c' & r & [->|?] & ? & ?)]; eauto 10. }
  rewrite Houter, lookup_empty. split; [intros [[? ?]|?]; done|by right].
Qed.

Lemma Basic_bestInCategory_zero comparisons category :
  (∀ comp r, comp ∈ comparisons → r ∈ ModelComparison.TestResults comp →
             BenchmarkResult.Category r = category →
             BenchmarkResult.Success r = true →
             (BenchmarkResult.TokensPerSecond r =? 0)%float = true) →
  bestInCategory category comparisons = ("", 0%float).
Proof.
  unfold bestInCategory. intros Hzero.
  assert (∀ name rs, (∀ r, r ∈ rs → BenchmarkResult.Category r = category →
                       BenchmarkResult.Success r = true →
                       (BenchmarkResult.TokensPerSecond r =? 0)%float = true) →
            foldl (bestStep category name) ("", 0%float) rs = ("", 0%float)) as Hinner.
  { intros name. induction rs as [|r rs IH]; intros Hrs; simpl; [done|].
    assert (bestStep category name ("", 0%float) r = ("", 0%float)) as ->.
    { unfold bestStep. simpl.
      destruct (String.eqb_spec (BenchmarkResult.Category r) category) as [Hc|?];
        simpl; [|done].
      destruct (BenchmarkResult.Success r) eqn:Hs; simpl; [|done].
      rewrite ltb_zero_of_eqb; [done|]. apply Hrs; [left|done|done]. }
    apply IH. intros r' Hr'. apply Hrs. by right. }
  revert Hzero. induction comparisons as [|c cs IH]; intros Hzero; simpl; [done|].
  rewrite Hinner.
  - apply IH. intros c' r' Hc'. apply Hzero. by right.
  - intros r' Hr'. apply (Hzero c); [left|done].
Qed.

Lemma Basic_elem_of_bestLines comparisons category model speed :
  (category, model, speed) ∈ bestLines comparisons →
  bestInCategory category comparisons = (model, speed) ∧ model ≠ "".
Proof.
  unfold bestLines.
  rewrite (foldl_snoc_map_filter
           (λ category, negb (String.eqb (bestInCategory category comparisons).1 ""))
           (λ category, (category, (bestInCategory category comparisons).1,
                         (bestInCategory category comparisons).2))
           (range_keys (categoriesOf comparisons)) []).
  simpl. rewrite list_elem_of_fmap.
  intros (c & [= -> -> ->] & Hin). apply elem_of_List_filter in Hin as [_ Hne].
  split; [by destruct (bestInCategory c comparisons)|].
  intros Heq. by rewrite Heq in Hne.
Qed.

Lemma Basic_bestStep_cases category name best r :
  bestStep category name best r = best ∨
  (bestStep category name best r = (name, BenchmarkResult.TokensPerSecond r) ∧
   BenchmarkResult.Category r = category ∧ BenchmarkResult.Success r = true ∧
   (best.2 <? BenchmarkResult.TokensPerSecond r)%float = true).
Proof.
  unfold bestStep.
  destruct (String.eqb_spec (BenchmarkResult.Category r) category); simpl; [|by left].
  destruct (BenchmarkResult.Success r); simpl; [|by left].
  destruct (best.2 <? BenchmarkResult.TokensPerSecond r)%float; [by right|by left].
Qed.
End BasicBest.

(** C10: in both drivers, the search for the best model of a category
    replaces the running best only by a result whose tokens per second are
    strictly greater, and starts from no model and 0. So for a category in
    which every successful result reports 0 tokens per second, no line is
    printed under "Best Model for Each Category", although the category is
    one of those of the breakdown tables. *)
Theorem best_needs_positive_speed `{SortSlice} :
  (∀ category name best r,
     Smart.bestStep category name best r = best ∨
     (Smart.bestStep category name best r = (name, Smart.BenchmarkResult.TokensPerSecond r) ∧
      (best.2 <? Smart.BenchmarkResult.TokensPerSecond r)%float = true)) ∧
  (∀ category, Smart.bestInCategory category [] = ("", 0%float)) ∧
  (∀ category name best r,
     Basic.bestStep category name best r = best ∨
     (Basic.bestStep category name best r = (name, Basic.BenchmarkResult.TokensPerSecond r) ∧
      (best.2 <? Basic.BenchmarkResult.TokensPerSecond r)%float = true)) ∧
  (∀ category, Basic.bestInCategory category [] = ("", 0%float)) ∧
  (∀ summaries report category,
     Smart.displayResults summaries = Some report →
     (∀ s r, s ∈ summaries → Smart.ModelSummary.CanRun s = true →
             r ∈ Smart.ModelSummary.TestResults s →
             Smart.BenchmarkResult.Category r = category →
             Smart.BenchmarkResult.Success r = true →
             (Smart.BenchmarkResult.TokensPerSecond r =? 0)%float = true) →
     (∃ s r, s ∈ summaries ∧ Smart.ModelSummary.CanRun s = true ∧
             r ∈ Smart.ModelSummary.TestResults s ∧
             Smart.BenchmarkResult.Category r = category ∧
             Smart.BenchmarkResult.Success r = true) →
     category ∈ map fst (Smart.Report.breakdown report) ∧
     ∀ model speed, (category, model, speed) ∉ Smart.Report.best report) ∧
  (∀ comparisons category,
     (∀ comp r, comp ∈ comparisons → r ∈ Basic.ModelComparison.TestResults comp →
                Basic.BenchmarkResult.Category r = category →
                Basic.BenchmarkResult.Success r = true →
                (Basic.BenchmarkResult.TokensPerSecond r =? 0)%float = true) →
     (∃ comp r, comp ∈ comparisons ∧ r ∈ Basic.ModelComparison.TestResults comp ∧
                Basic.BenchmarkResult.Category r = category) →
     category ∈ range_keys (Basic.categoriesOf comparisons) ∧
     ∀ model speed, (category, model, speed) ∉ Basic.bestLines comparisons).
Proof.
  split; [|split; [done|split; [|split; [done|split]]]].
  - intros category name best r.
    destruct (bestStep_cases category name best r) as [?|(? & _ & _ & ?)]; auto.
  - intros category name best r.
    destruct (Basic_bestStep_cases category name best r) as [?|(? & _ & _ & ?)]; auto.
  - intros summaries report category Hreport Hzero (s & r & Hs & Hrun & Hr & Hc & Hok).
    unfold Smart.displayResults in Hreport. case_bool_decide; [done|].
    injection Hreport as <-. simpl. split.
    + rewrite map_map. simpl. rewrite map_id. apply elem_of_range_keys.
      apply categoriesOf_lookup. exists s, r.
      split; [by apply elem_of_overallRanking|done].
    + intros model speed Hin. apply elem_of_bestLines in Hin as [Hbest Hne].
      rewrite bestInCategory_zero in Hbest; [by injection Hbest as <- _|].
      intros s' r' Hs'. apply elem_of_overallRanking in Hs' as [Hs' Hrun'].
      by apply Hzero.
  - intros comparisons category Hzero Hsome. split.
    + by apply elem_of_range_keys, Basic_categoriesOf_lookup.
    + intros model speed Hin. apply Basic_elem_of_bestLines in Hin as [Hbest Hne].
      rewrite Basic_bestInCategory_zero in Hbest by done. by injection Hbest as <- _.
Qed.

(** ** The overall ranking *)

Definition insertion_SortSlice : SortSlice :=
  Build_SortSlice (@insertion_sort)
    (λ A less l, insertion_sort_Permutation less l)
    (λ A less l, insertion_sort_sorted_by less l).







Lemma best_needs_positive_speed_witness :
  ∃ report,
    @Smart.displayResults insertion_SortSlice [summary_zero_speed] = Some report ∧
    "qa" ∈ map fst (Smart.Report.breakdown report) ∧
    ∀ model speed, ("qa", model, speed) ∉ Smart.Report.best report.
Proof.
  eexists. split; [vm_compute; reflexivity|].
  apply (proj1 (proj2 (proj2 (proj2 (proj2
           (@best_needs_positive_speed insertion_SortSlice)))))
           [summary_zero_speed] _ "qa").
  - vm_compute; reflexivity.
  - intros s r Hs _ Hr _ _. apply list_elem_of_singleton in Hs. subst s.
    apply list_elem_of_singleton in Hr. subst r. reflexivity.
  - exists summary_zero_speed, result_zero_speed.
    split; [left|]. split; [reflexivity|]. split; [left|]. split; reflexivity.
Defined.

(** * Further properties of the catalog *)

Lemma collectModels_rounds families tagsResp :
  Smart.collectModels families tagsResp =
  foldl (family_round (range_keys (installed_map tagsResp))) [] families.
Proof. reflexivity. Qed.

Lemma installed_map_lookup tagsResp name :
  is_Some (installed_map tagsResp !! name) ↔ name ∈ installed_names tagsResp.
Proof.
  unfold installed_map, installed_names.
  assert (∀ ms (m0 : gmap string bool),
            is_Some (foldl (λ installed m, <[OllamaModel.Name m := true]> installed) m0 ms
                     !! name) ↔
            is_Some (m0 !! name) ∨ name ∈ map OllamaModel.Name ms) as G.
  { induction ms as [|m ms IH]; intros m0; simpl.
    - split; [by left|]. intros [?|H]; [done|]. by apply elem_of_nil in H.
    - rewrite IH, lookup_insert_is_Some, elem_of_cons. split.
      + intros [[Hn|[_ ?]]|?]; auto.
      + intros [?|[->|?]]; auto.
        destruct (decide (OllamaModel.Name m = name)); auto. }
  rewrite G, lookup_empty. split; [intros [[? ?]|?]; done|by right].
Qed.

Lemma elem_of_keys tagsResp name :
  name ∈ range_keys (installed_map tagsResp) ↔ name ∈ installed_names tagsResp.
Proof. by rewrite elem_of_range_keys, installed_map_lookup. Qed.


Lemma add_installed_filter keys family models :
  add_installed keys family models =
  models ++ List.filter (λ name, strings_HasPrefix name (Smart.LLMFamily.Name family)) keys.
Proof. apply foldl_snoc_filter. Qed.

Lemma existsb_eqb_elem_of (x : string) (l : list string) :
  existsb (λ m, String.eqb m x) l = true ↔ x ∈ l.
Proof.
  rewrite existsb_exists, list_elem_of_In. split.
  - intros (y & Hy & Heq). by apply String.eqb_eq in Heq as ->.
  - intros Hx. exists x. split; [done|]. apply String.eqb_refl.
Qed.

Lemma elem_of_add_variants variants models x :
  x ∈ add_variants variants models ↔ x ∈ models ∨ x ∈ variants.
Proof.
  revert models. induction variants as [|v vs IH]; intros models; simpl.
  - split; [by left|]. intros [?|H]; [done|]. by apply elem_of_nil in H.
  - rewrite IH, elem_of_cons.
    destruct (existsb (λ m, String.eqb m v) models) eqn:Hf; simpl.
    + apply existsb_eqb_elem_of in Hf. split; [tauto|].
      intros [?|[->|?]]; auto.
    + rewrite elem_of_app, list_elem_of_singleton. tauto.
Qed.


Lemma elem_of_family_round tagsResp models family x :
  x ∈ family_round (range_keys (installed_map tagsResp)) models family ↔
  x ∈ models ∨ contributes tagsResp family x.
Proof.
  unfold family_round, contributes.
  destruct (Smart.LLMFamily.Enabled family); simpl;
    [|split; [by left|intros [?|[? _]]; done]].
  destruct (Smart.LLMFamily.TestAllVariants family).
  - rewrite elem_of_add_variants, add_installed_filter, elem_of_app,
      elem_of_List_filter, elem_of_keys. intuition.
  - rewrite add_installed_filter, elem_of_app, elem_of_List_filter, elem_of_keys.
    intuition congruence.
Qed.

Lemma elem_of_collectModels families tagsResp model :
  model ∈ Smart.collectModels families tagsResp ↔
  ∃ family, family ∈ families ∧ contributes tagsResp family model.
Proof.
  rewrite collectModels_rounds.
  assert (∀ models,
            model ∈ foldl (family_round (range_keys (installed_map tagsResp))) models families ↔
            model ∈ models ∨ ∃ family, family ∈ families ∧ contributes tagsResp family model)
    as G.
  { induction families as [|f fs IH]; intros models; simpl.
    - split; [by left|]. intros [?|(f & Hf & _)]; [done|]. by apply elem_of_nil in Hf.
    - rewrite IH, elem_of_family_round. setoid_rewrite elem_of_cons. split.
      + intros [[?|?]|(g & ? & ?)]; eauto 6.
      + intros [?|(g & [->|?] & ?)]; eauto 6. }
  rewrite G. split; [intros [H|?]; [by apply elem_of_nil in H|done]|by right].
Qed.

(** X2: the catalog holds exactly the models an enabled family contributes, and
    is empty when the listing of the daemon cannot be had or decoded. *)
Theorem getOllamaLibraryModels_members config w model :
  model ∈ (Smart.getOllamaLibraryModels config w).1 ↔
  ∃ statusCode tagsResp family,
    World.tags w (World.tagsCalls w) = TagsResponse statusCode (Some tagsResp) ∧
    family ∈ Smart.Config.LLMFamilies config ∧ contributes tagsResp family model.
Proof.
  unfold Smart.getOllamaLibraryModels. rewrite IO_bind_run. simpl.
  destruct (World.tags w (World.tagsCalls w)) as [err|code [tagsResp|]]; simpl.
  - split; [by intros H%elem_of_nil|]. by intros (? & ? & ? & ? & _).
  - unfold sort_Strings. rewrite merge_sort_Permutation, elem_of_collectModels.
    split; [intros (f & ? & ?); by exists code, tagsResp, f|].
    intros (? & ? & f & [= <- <-] & ? & ?). by exists f.
  - split; [by intros H%elem_of_nil|]. by intros (? & ? & ? & ? & _).
Qed.

Lemma prefix_append_same (a b c : string) :
  String.prefix (String.append a b) (String.append a c) = String.prefix b c.
Proof.
  induction a as [|x a IH]; simpl; [done|].
  destruct (ascii_dec x x) as [_|Hne]; [apply IH|by destruct Hne].
Qed.


Lemma variants_table_ok :
  Forall (λ entry, entry.2 ≠ [] ∧
            Forall (λ variant, String.prefix (String.append entry.1 ":") variant = true)
                   entry.2)
         variants_table.
Proof. repeat constructor; done. Qed.

Lemma getCommonVariants_table family :
  Smart.getCommonVariants family ≠ [] ∧
  Forall (λ variant, String.prefix (String.append family ":") variant = true)
         (Smart.getCommonVariants family).
Proof.
  unfold Smart.getCommonVariants.
  destruct (Smart.variants !! family) as [vs|] eqn:Hvs.
  - apply (elem_of_list_to_map_2 variants_table) in Hvs.
    pose proof variants_table_ok as Hok. rewrite Forall_forall in Hok.
    apply (Hok _ Hvs).
  - split; [done|]. constructor; [|constructor].
    apply (prefix_append_same family ":" ":latest").
Qed.

(** X3: the reference variants of a family: never an empty list, and each
    variant is the family name, a ':', and a tag; also for a family that
    the table does not know, whose only variant is [family:latest]. *)
Theorem getCommonVariants_family family :
  Smart.getCommonVariants family ≠ [] ∧
  (∀ variant, variant ∈ Smart.getCommonVariants family →
     strings_HasPrefix variant (String.append family ":") = true) ∧
  (Smart.variants !! family = None →
   Smart.getCommonVariants family = [String.append family ":latest"]).
Proof.
  destruct (getCommonVariants_table family) as [Hne Hall]. split; [done|]. split.
  - by apply Forall_forall.
  - unfold Smart.getCommonVariants. by intros ->.
Qed.






(** * Further properties of the footprint estimate *)

Lemma strings_Contains_tail (s sub : string) (c : ascii) :
  strings_Contains s (String c sub) = true → strings_Contains s sub = true.
Proof.
  induction s as [|x s IH]; simpl.
  - done.
  - destruct (ascii_dec c x) as [->|Hne]; simpl.
    + intros [Hp|Hc]%orb_true_iff.
      * apply orb_true_iff. right.
        destruct s as [|y s]; simpl; [by destruct sub|].
        simpl in Hp. by rewrite Hp.
      * apply orb_true_iff. right. by apply IH.
    + intros Hc. apply orb_true_iff. right. by apply IH.
Qed.

Lemma estimateModelRAM_values modelName :
  Smart.estimateModelRAM modelName ∈ [1; 2; 3; 5; 6; 9; 20; 40; 130; 220]%Z.
Proof.
  unfold Smart.estimateModelRAM.
  set (size := Smart.extractModelSize modelName).
  pose proof (strings_Contains_tail size "7b" "2"%char) as H27.
  pose proof (strings_Contains_tail size "71b" "6"%char) as H671.
  pose proof (strings_Contains_tail size "1b" "7"%char) as H71.
  cbv zeta.
  destruct (strings_Contains size "0.5b"); simpl; [set_solver|].
  destruct (strings_Contains size "0.6b"); simpl; [set_solver|].
  destruct (strings_Contains size "1b"); simpl; [set_solver|].
  destruct (strings_Contains size "1.3b"); simpl; [set_solver|].
  destruct (strings_Contains size "1.5b"); simpl; [set_solver|].
  destruct (strings_Contains size "1.7b"); simpl; [set_solver|].
  destruct (strings_Contains size "2b"); simpl; [set_solver|].
  destruct (strings_Contains size "3b"); simpl; [set_solver|].
  destruct (strings_Contains size "6.7b"); simpl; [set_solver|].
  destruct (strings_Contains size "7b"); simpl; [set_solver|].
  destruct (strings_Contains size "8b"); simpl; [set_solver|].
  destruct (strings_Contains size "9b"); simpl; [set_solver|].
  destruct (strings_Contains size "13b"); simpl; [set_solver|].
  destruct (strings_Contains size "14b"); simpl; [set_solver|].
  destruct (strings_Contains size "27b"); simpl; [by specialize (H27 eq_refl)|].
  destruct (strings_Contains size "32b"); simpl; [set_solver|].
  destruct (strings_Contains size "33b"); simpl; [set_solver|].
  destruct (strings_Contains size "34b"); simpl; [set_solver|].
  destruct (strings_Contains size "70b"); simpl; [set_solver|].
  destruct (strings_Contains size "235b"); simpl; [set_solver|].
  destruct (strings_Contains size "405b"); simpl; [set_solver|].
  destruct (strings_Contains size "671b"); simpl; [|].
  - specialize (H671 eq_refl). destruct (strings_Contains size "71b"); [|done].
    by specialize (H71 eq_refl).
  - destruct (strings_Contains size "mini"); simpl; [set_solver|].
    destruct (strings_Contains size "medium"); simpl; set_solver.
Qed.

Lemma estimateModelRAM_attained v :
  v ∈ [1; 2; 3; 5; 6; 9; 20; 40; 130; 220]%Z → ∃ modelName, Smart.estimateModelRAM modelName = v.
Proof.
  intros Hv. repeat (apply elem_of_cons in Hv as [->|Hv]).
  - by exists "m:0.5b".
  - by exists "m:1b".
  - by exists "m:3b".
  - by exists "m:7b".
  - by exists "m:8b".
  - by exists "m:14b".
  - by exists "m:34b".
  - by exists "m:70b".
  - by exists "m:235b".
  - by exists "m:405b".
  - by apply elem_of_nil in Hv.
Qed.

(** X5: the estimate takes exactly ten values. The 16 GB of "27b" and the
    370 GB of "671b" are not among them: a tag with "27b" has "7b" and a
    tag with "671b" has "1b", which are checked first. *)
Theorem estimateModelRAM_image v :
  (∃ modelName, Smart.estimateModelRAM modelName = v) ↔
  v ∈ [1; 2; 3; 5; 6; 9; 20; 40; 130; 220]%Z.
Proof.
  split; [intros [modelName <-]; apply estimateModelRAM_values|].
  apply estimateModelRAM_attained.
Qed.

(** X6: tokens of the table that an earlier token shadows: a tag with "13b" or
    "33b" is estimated as "3b" at most, one with "27b" as "7b" at most, one
    with "32b" or "671b" as "2b" at most. *)
Theorem estimateModelRAM_shadowed modelName :
  let size := Smart.extractModelSize modelName in
  (strings_Contains size "13b" = true → Smart.estimateModelRAM modelName <= 3)%Z ∧
  (strings_Contains size "27b" = true → Smart.estimateModelRAM modelName <= 5)%Z ∧
  (strings_Contains size "32b" = true → Smart.estimateModelRAM modelName <= 2)%Z ∧
  (strings_Contains size "33b" = true → Smart.estimateModelRAM modelName <= 3)%Z ∧
  (strings_Contains size "671b" = true → Smart.estimateModelRAM modelName <= 2)%Z.
Proof.
  intros size. unfold Smart.estimateModelRAM. fold size. cbv zeta.
  repeat split; intros H.
  - apply strings_Contains_tail in H. rewrite H.
    destruct (strings_Contains size "0.5b" || strings_Contains size "0.6b"); [lia|].
    destruct (strings_Contains size "1b" || strings_Contains size "1.3b"
              || strings_Contains size "1.5b" || strings_Contains size "1.7b"); [lia|].
    destruct (strings_Contains size "2b"); lia.
  - apply strings_Contains_tail in H. rewrite H, orb_true_r.
    destruct (strings_Contains size "0.5b" || strings_Contains size "0.6b"); [lia|].
    destruct (strings_Contains size "1b" || strings_Contains size "1.3b"
              || strings_Contains size "1.5b" || strings_Contains size "1.7b"); [lia|].
    destruct (strings_Contains size "2b"); [lia|].
    destruct (strings_Contains size "3b"); lia.
  - apply strings_Contains_tail in H. rewrite H.
    destruct (strings_Contains size "0.5b" || strings_Contains size "0.6b"); [lia|].
    destruct (strings_Contains size "1b" || strings_Contains size "1.3b"
              || strings_Contains size "1.5b" || strings_Contains size "1.7b"); lia.
  - apply strings_Contains_tail in H. rewrite H.
    destruct (strings_Contains size "0.5b" || strings_Contains size "0.6b"); [lia|].
    destruct (strings_Contains size "1b" || strings_Contains size "1.3b"
              || strings_Contains size "1.5b" || strings_Contains size "1.7b"); [lia|].
    destruct (strings_Contains size "2b"); lia.
  - do 2 apply strings_Contains_tail in H. rewrite H. simpl.
    destruct (strings_Contains size "0.5b" || strings_Contains size "0.6b"); lia.
Qed.

Lemma estimateModelRAM_shadowed_witness :
  (Smart.estimateModelRAM "gemma2:27b" <= 5)%Z ∧
  (Smart.estimateModelRAM "qwen2.5:32b" <= 2)%Z.
Proof.
  split.
  - apply (proj1 (proj2 (estimateModelRAM_shadowed "gemma2:27b"))). reflexivity.
  - apply (proj1 (proj2 (proj2 (estimateModelRAM_shadowed "qwen2.5:32b")))). reflexivity.
Defined.

(** * Further properties of the admission filter *)

Lemma filterModelsByResources_fits models sysInfo config :
  Smart.filterModelsByResources models sysInfo config
  = List.filter (fits sysInfo config) models.
Proof.
  unfold Smart.filterModelsByResources, fits.
  destruct (Smart.TestSettings.SkipIfInsufficientResources _); simpl.
  - apply (foldl_snoc_filter _ models []).
  - induction models as [|m ms IH]; simpl; congruence.
Qed.

(** X7: the filter keeps the order of the catalog and drops nothing twice over:
    its result is a sublist of the catalog, filtering again changes nothing,
    and more available memory never rejects a model that less fits. *)
Theorem filterModelsByResources_monotone models sysInfo sysInfo' config :
  sublist (Smart.filterModelsByResources models sysInfo config) models ∧
  Smart.filterModelsByResources
    (Smart.filterModelsByResources models sysInfo config) sysInfo config
  = Smart.filterModelsByResources models sysInfo config ∧
  ((Smart.SystemInfo.AvailableRAMGB sysInfo <= Smart.SystemInfo.AvailableRAMGB sysInfo')%Z →
   sublist (Smart.filterModelsByResources models sysInfo config)
           (Smart.filterModelsByResources models sysInfo' config)).
Proof.
  rewrite !filterModelsByResources_fits. split; [|split].
  - induction models as [|m ms IH]; simpl; [done|].
    destruct (fits sysInfo config m); by constructor.
  - induction models as [|m ms IH]; simpl; [done|].
    destruct (fits sysInfo config m) eqn:Hm; simpl; [|done].
    by rewrite Hm, IH.
  - intros Hle. induction models as [|m ms IH]; simpl; [done|].
    destruct (fits sysInfo config m) eqn:Hm.
    + assert (fits sysInfo' config m = true) as ->; [|by constructor].
      unfold fits in *. apply orb_true_iff in Hm as [Hm|Hm]; apply orb_true_iff;
        [by left|right]. apply Z.leb_le in Hm. apply Z.leb_le. lia.
    + destruct (fits sysInfo' config m); [by constructor|done].
Qed.

(** X8: what [main] announces about the models left out agrees with what it
    lists: the number announced is the number of models listed, and the
    models listed are those of the catalog that fail the test; nothing is
    announced when every model passes. *)
Theorem skippedModels_consistent availableModels sysInfo config :
  let testableModels := Smart.filterModelsByResources availableModels sysInfo config in
  match Smart.skippedModels availableModels testableModels with
  | Some (count, skipped) =>
      count = Z.of_nat (length skipped) ∧
      skipped = List.filter (λ model, negb (fits sysInfo config model)) availableModels ∧
      skipped ≠ []
  | None => testableModels = availableModels
  end.
Proof.
  intros testableModels.
  assert (testableModels = List.filter (fits sysInfo config) availableModels) as Htm
    by apply filterModelsByResources_fits.
  clearbody testableModels. unfold Smart.skippedModels. cbv zeta.
  assert (∀ model, model ∈ availableModels →
            existsb (λ tm, String.eqb tm model) testableModels = fits sysInfo config model)
    as Hfound.
  { intros model Hin. rewrite Htm.
    destruct (fits sysInfo config model) eqn:Hm.
    - apply existsb_exists. exists model. split; [|apply String.eqb_refl].
      apply filter_In. split; [by apply list_elem_of_In|done].
    - apply not_true_is_false. intros (x & Hx & Heq)%existsb_exists.
      apply String.eqb_eq in Heq as ->. apply filter_In in Hx as [_ Hx]. congruence. }
  assert (foldl (λ skipped model,
                   if negb (existsb (λ tm, String.eqb tm model) testableModels)
                   then skipped ++ [model] else skipped) [] availableModels
          = List.filter (λ model, negb (fits sysInfo config model)) availableModels)
    as Hlist.
  { rewrite (foldl_snoc_filter
               (λ model, negb (existsb (λ tm, String.eqb tm model) testableModels))
               availableModels []). simpl.
    apply filter_ext_in. intros model Hin. f_equal. apply Hfound.
    by apply list_elem_of_In. }
  assert (length availableModels
          = (length testableModels
             + length (List.filter (λ model, negb (fits sysInfo config model))
                         availableModels))%nat) as Hlen.
  { rewrite Htm. clear. induction availableModels as [|m ms IH]; simpl; [done|].
    destruct (fits sysInfo config m); simpl; lia. }
  rewrite Hlist. destruct (Z.ltb_spec (Z.of_nat (length testableModels))
                                       (Z.of_nat (length availableModels))) as [Hlt|Hge].
  - split; [lia|]. split; [done|]. intros Hnil. rewrite Hnil in Hlen. simpl in Hlen. lia.
  - assert (length (List.filter (λ model, negb (fits sysInfo config model))
              availableModels) = 0%nat) as H0 by lia.
    rewrite Htm. clear -H0. induction availableModels as [|m ms IH]; simpl in *; [done|].
    destruct (fits sysInfo config m); simpl in *; [f_equal; auto|lia].
Qed.

Lemma before_colon_clean (s : string) : strings_Contains (before_colon s) ":" = false.
Proof.
  induction s as [|c s IH]; [done|].
  cbn [before_colon].
  destruct (Ascii.eqb_spec c ":"%char) as [->|Hne]; [done|].
  cbn [strings_Contains String.prefix]. rewrite IH, orb_false_r.
  destruct (ascii_dec ":" c) as [<-|_]; done.
Qed.

(** X9: the size tag never holds a ':'. *)
Theorem extractModelSize_no_colon modelName :
  strings_Contains (Smart.extractModelSize modelName) ":" = false.
Proof.
  rewrite extractModelSize_unfold.
  destruct (after_colon modelName); [apply before_colon_clean|done].
Qed.

(** * Further properties of the executor *)

(** X10: every result of [runBenchmark] names its model and its test; it is a
    success exactly when it carries no error text; a failure carries no
    metric, no response and no footprint. *)
Theorem runBenchmark_result model test w :
  let r := (Smart.runBenchmark model test w).1 in
  Smart.BenchmarkResult.ModelName r = model ∧
  Smart.BenchmarkResult.ModelSize r = Smart.extractModelSize model ∧
  Smart.BenchmarkResult.TestName r = Smart.TestCase.Name test ∧
  Smart.BenchmarkResult.Category r = Smart.TestCase.Category test ∧
  (Smart.BenchmarkResult.Success r = true ↔ Smart.BenchmarkResult.Error r = "") ∧
  (Smart.BenchmarkResult.Success r = true →
     Smart.BenchmarkResult.RAMUsedGB r = float64_of_int (Smart.estimateModelRAM model)) ∧
  (Smart.BenchmarkResult.Success r = false →
     Smart.BenchmarkResult.TokensPerSecond r = 0%float ∧
     Smart.BenchmarkResult.TimeToFirstToken r = 0%float ∧
     Smart.BenchmarkResult.TotalTimeMs r = 0%float ∧
     Smart.BenchmarkResult.RAMUsedGB r = 0%float ∧
     Smart.BenchmarkResult.TotalTokens r = 0%Z ∧
     Smart.BenchmarkResult.PromptTokens r = 0%Z ∧
     Smart.BenchmarkResult.Response r = "").
Proof.
  rewrite runBenchmark_run. simpl.
  destruct (World.generates w (World.generateCalls w)); simpl; repeat split; done.
Qed.

(** X11: the two drivers make the same result of the same reply. *)
Theorem runBenchmark_drivers_agree model test test' w :
  Basic.TestCase.Name test' = Smart.TestCase.Name test →
  Basic.TestCase.Category test' = Smart.TestCase.Category test →
  let s := (Smart.runBenchmark model test w).1 in
  let b := (Basic.runBenchmark model test' w).1 in
  Basic.BenchmarkResult.ModelName b = Smart.BenchmarkResult.ModelName s ∧
  Basic.BenchmarkResult.TestName b = Smart.BenchmarkResult.TestName s ∧
  Basic.BenchmarkResult.Category b = Smart.BenchmarkResult.Category s ∧
  Basic.BenchmarkResult.TokensPerSecond b = Smart.BenchmarkResult.TokensPerSecond s ∧
  Basic.BenchmarkResult.TimeToFirstToken b = Smart.BenchmarkResult.TimeToFirstToken s ∧
  Basic.BenchmarkResult.TotalTokens b = Smart.BenchmarkResult.TotalTokens s ∧
  Basic.BenchmarkResult.PromptTokens b = Smart.BenchmarkResult.PromptTokens s ∧
  Basic.BenchmarkResult.TotalTimeMs b = Smart.BenchmarkResult.TotalTimeMs s ∧
  Basic.BenchmarkResult.Response b = Smart.BenchmarkResult.Response s ∧
  Basic.BenchmarkResult.Success b = Smart.BenchmarkResult.Success s ∧
  Basic.BenchmarkResult.Error b = Smart.BenchmarkResult.Error s.
Proof.
  intros Hn Hc. rewrite runBenchmark_run. unfold Basic.runBenchmark.
  rewrite IO_bind_run. simpl.
  destruct (World.generates w (World.generateCalls w)); simpl; rewrite ?Hn, ?Hc;
    repeat split; done.
Qed.

Lemma runBenchmark_drivers_agree_witness :
  let test := Smart.TestCase.mk "t" "p" "qa" in
  let test' := Basic.TestCase.mk "t" "p" "qa" 0 in
  Basic.BenchmarkResult.Error (Basic.runBenchmark "demo:3b" test' world_malformed).1
  = Smart.BenchmarkResult.Error (Smart.runBenchmark "demo:3b" test world_malformed).1.
Proof.
  intros test test'.
  apply (runBenchmark_drivers_agree "demo:3b" test test' world_malformed eq_refl eq_refl).
Defined.

(** * Further properties of pulls *)

Lemma eqb_success_Contains statusStr :
  String.eqb statusStr "success" = true → strings_Contains statusStr "success" = true.
Proof. intros ->%String.eqb_eq. reflexivity. Qed.

(** X12: the basic driver is the stricter of the two: whenever its [pullModel]
    reports success, so does the one of the configuration-driven driver on
    the same reply. *)
Theorem pullModel_Basic_Smart model w :
  (Basic.pullModel model w).1 = true → (Smart.pullModel model w).1 = true.
Proof.
  unfold Basic.pullModel, Smart.pullModel. rewrite !IO_bind_run. simpl.
  destruct (World.pulls w (World.pullCalls w)) as [err|items]; simpl; [done|].
  induction items as [|[status|err] items IH]; simpl; [done| |done].
  destruct (status !! "status") as [[| | |statusStr|]|]; try done.
  destruct (String.eqb statusStr "success") eqn:Heq.
  - by rewrite (eqb_success_Contains _ Heq).
  - intros H. destruct (strings_Contains statusStr "success"); [done|by apply IH].
Qed.

Lemma pullModel_Basic_Smart_witness :
  (Smart.pullModel "llama3.2:1b"
     (world_pull (PullStream [status_update "verifying"; status_update "success"]))).1
  = true.
Proof. apply pullModel_Basic_Smart. reflexivity. Defined.

(** * Calls and outcomes of a run *)

Lemma testModel_calls model w :
  let s := (Smart.testModel model w).1 in
  let w' := (Smart.testModel model w).2 in
  Smart.ModelSummary.ModelName s = model ∧
  Smart.ModelSummary.SkipReason s = "" ∧
  Smart.ModelSummary.ModelSize s = Smart.extractModelSize model ∧
  length (Smart.ModelSummary.TestResults s) = length Smart.testCases ∧
  World.tagsCalls w' = World.tagsCalls w ∧
  World.pullCalls w' = World.pullCalls w ∧
  World.generateCalls w' = (length Smart.testCases + World.generateCalls w)%nat.
Proof.
  rewrite testModel_run. cbv zeta. cbn [fst snd World.tagsCalls World.pullCalls
    World.generateCalls].
  split; [done|]. split; [done|]. split; [done|]. split; [|done].
  rewrite summarize_TestResults. unfold battery_results, generate_replies.
  rewrite length_zip_with, length_map, length_seq. lia.
Qed.

Lemma benchmarkModel_calls config summaries model w :
  let w' := (Smart.benchmarkModel config summaries model w).2 in
  ∃ s, (Smart.benchmarkModel config summaries model w).1 = summaries ++ [s] ∧
       outcome config model s ∧
       World.tagsCalls w' = S (World.tagsCalls w) ∧
       World.generateCalls w'
         = (World.generateCalls w + length (Smart.ModelSummary.TestResults s))%nat ∧
       (World.pullCalls w' = World.pullCalls w ∨
        (Smart.TestSettings.AutoPullModels (Smart.Config.TestSettings config) = true ∧
         (Smart.checkModelInstalled model w).1 = false ∧
         World.pullCalls w' = S (World.pullCalls w))).
Proof.
  unfold Smart.benchmarkModel. rewrite IO_bind_run.
  assert (World.tagsCalls (Smart.checkModelInstalled model w).2 = S (World.tagsCalls w) ∧
          World.pullCalls (Smart.checkModelInstalled model w).2 = World.pullCalls w ∧
          World.generateCalls (Smart.checkModelInstalled model w).2 = World.generateCalls w)
    as (Ht1 & Hp1 & Hg1) by done.
  destruct (Smart.checkModelInstalled model w) as [installed w1]. cbn [fst snd] in *.
  assert (∀ w2, ∃ s,
     ((summary ← Smart.testModel model; mret (summaries ++ [summary])) w2).1
       = summaries ++ [s] ∧ outcome config model s ∧
     World.tagsCalls ((summary ← Smart.testModel model; mret (summaries ++ [summary])) w2).2
       = World.tagsCalls w2 ∧
     World.pullCalls ((summary ← Smart.testModel model; mret (summaries ++ [summary])) w2).2
       = World.pullCalls w2 ∧
     World.generateCalls ((summary ← Smart.testModel model; mret (summaries ++ [summary])) w2).2
       = (World.generateCalls w2 + length (Smart.ModelSummary.TestResults s))%nat) as Htest.
  { intros w2. rewrite IO_bind_run. unfold mret, IO_ret. cbn [fst snd].
    destruct (testModel_calls model w2) as (Hn & Hs & Hz & Hl & Ht & Hp & Hg).
    exists (Smart.testModel model w2).1. split; [done|]. split.
    - split; [done|]. by left.
    - split; [done|]. split; [done|]. rewrite Hg, Hl. lia. }
  destruct installed; cbn [negb].
  - destruct (Htest w1) as (s & -> & Ho & Ht & Hp & Hg). exists s.
    split; [done|]. split; [done|]. split; [congruence|]. split; [congruence|].
    left. congruence.
  - destruct (Smart.TestSettings.AutoPullModels (Smart.Config.TestSettings config)) eqn:Hauto.
    + rewrite IO_bind_run.
      assert (World.tagsCalls (Smart.pullModel model w1).2 = World.tagsCalls w1 ∧
              World.pullCalls (Smart.pullModel model w1).2 = S (World.pullCalls w1) ∧
              World.generateCalls (Smart.pullModel model w1).2 = World.generateCalls w1)
        as (Ht2 & Hp2 & Hg2) by done.
      destruct (Smart.pullModel model w1) as [pulled w2]. cbn [fst snd] in *.
      destruct pulled; cbn [negb].
      * destruct (Htest w2) as (s & -> & Ho & Ht & Hp & Hg). exists s.
        split; [done|]. split; [done|]. split; [congruence|]. split; [congruence|].
        right. split; [done|]. split; [done|]. congruence.
      * unfold mret, IO_ret. cbn [fst snd]. eexists. split; [done|]. split.
        { split; [done|]. right. right. by split. }
        cbn. split; [congruence|]. split; [lia|].
        right. split; [done|]. split; [done|]. congruence.
    + unfold mret, IO_ret. cbn [fst snd]. eexists. split; [done|]. split.
      { split; [done|]. right. left. by split. }
      cbn. split; [congruence|]. split; [lia|]. left. congruence.
Qed.

(** X13: the calls of a run: one listing request for each model; one generation
    call for each result recorded, no more; a pull only for a model that is
    not listed as installed, at most one for each model, and none at all
    when auto-pull is off. Every model is left in one of three ways. *)
Theorem runBenchmarks_calls config models w :
  let summaries := (Smart.runBenchmarks config models w).1 in
  let w' := (Smart.runBenchmarks config models w).2 in
  Forall2 (outcome config) models summaries ∧
  World.tagsCalls w' = (World.tagsCalls w + length models)%nat ∧
  World.generateCalls w' = (World.generateCalls w + total_results summaries)%nat ∧
  (World.pullCalls w ≤ World.pullCalls w' ≤ World.pullCalls w + length models)%nat ∧
  (Smart.TestSettings.AutoPullModels (Smart.Config.TestSettings config) = false →
   World.pullCalls w' = World.pullCalls w).
Proof.
  unfold Smart.runBenchmarks.
  assert (∀ acc w0,
    ∃ new, (forM models (Smart.benchmarkModel config) acc w0).1 = acc ++ new ∧
      Forall2 (outcome config) models new ∧
      World.tagsCalls (forM models (Smart.benchmarkModel config) acc w0).2
        = (World.tagsCalls w0 + length models)%nat ∧
      World.generateCalls (forM models (Smart.benchmarkModel config) acc w0).2
        = (World.generateCalls w0 + total_results new)%nat ∧
      (World.pullCalls w0 ≤ World.pullCalls (forM models (Smart.benchmarkModel config) acc w0).2
         ≤ World.pullCalls w0 + length models)%nat ∧
      (Smart.TestSettings.AutoPullModels (Smart.Config.TestSettings config) = false →
       World.pullCalls (forM models (Smart.benchmarkModel config) acc w0).2
         = World.pullCalls w0)) as G.
  { induction models as [|model models IH]; intros acc w0; simpl.
    - exists []. rewrite app_nil_r. unfold total_results. simpl.
      repeat split; try done; lia.
    - rewrite IO_bind_run.
      destruct (benchmarkModel_calls config acc model w0) as (s & Hs & Ho & Ht & Hg & Hp).
      rewrite Hs.
      destruct (IH (acc ++ [s]) (Smart.benchmarkModel config acc model w0).2)
        as (new & -> & Hnew & Ht' & Hg' & Hp' & Hoff).
      exists (s :: new). split; [by rewrite <- app_assoc|].
      split; [by constructor|]. split; [lia|].
      split; [unfold total_results in *; simpl; lia|]. split.
      + destruct Hp as [Hp|(_ & _ & Hp)]; lia.
      + intros Hauto. rewrite (Hoff Hauto).
        destruct Hp as [Hp|(Hon & _)]; [done|congruence]. }
  destruct (G [] w) as (new & Hn & H1 & H2 & H3 & H4 & H5). cbv zeta.
  rewrite Hn. simpl. done.
Qed.

(** X14: a model is found installed exactly when the listing decodes and holds
    its very name, whatever the status code; the basic driver's
    [checkModelAvailable] answers the same. So on one listing, an entry of
    the catalog is found installed unless it is there only as a reference
    variant. *)
Theorem checkModelInstalled_exact config model w w' statusCode tagsResp :
  World.tags w (World.tagsCalls w) = TagsResponse statusCode (Some tagsResp) →
  World.tags w' (World.tagsCalls w') = World.tags w (World.tagsCalls w) →
  ((Smart.checkModelInstalled model w').1 = true ↔ model ∈ installed_names tagsResp) ∧
  (Basic.checkModelAvailable model w').1 = (Smart.checkModelInstalled model w').1 ∧
  (model ∈ (Smart.getOllamaLibraryModels config w).1 →
   (Smart.checkModelInstalled model w').1 = false →
   ∃ family, family ∈ Smart.Config.LLMFamilies config ∧
             Smart.LLMFamily.Enabled family = true ∧
             Smart.LLMFamily.TestAllVariants family = true ∧
             model ∈ Smart.getCommonVariants (Smart.LLMFamily.Name family)).
Proof.
  intros Hreply Hsame.
  assert ((Smart.checkModelInstalled model w').1 = true ↔ model ∈ installed_names tagsResp)
    as Hchk.
  { unfold Smart.checkModelInstalled. rewrite IO_bind_run. simpl.
    rewrite Hsame, Hreply. unfold installed_names.
    rewrite existsb_exists, list_elem_of_fmap. split.
    - intros (m & Hm & Heq%String.eqb_eq). exists m. split; [done|].
      by apply list_elem_of_In.
    - intros (m & Heq & Hm). exists m. split; [by apply list_elem_of_In|].
      by apply String.eqb_eq. }
  split; [done|]. split; [done|].
  intros Hin Hno. unfold Smart.getOllamaLibraryModels in Hin.
  rewrite IO_bind_run in Hin. simpl in Hin. rewrite Hreply in Hin. simpl in Hin.
  unfold sort_Strings in Hin. rewrite merge_sort_Permutation in Hin.
  apply elem_of_collectModels in Hin as (family & Hf & Hen & [[Hinst _]|[Hall Hv]]).
  - apply Hchk in Hinst. congruence.
  - by exists family.
Qed.

Lemma checkModelInstalled_exact_witness :
  (Smart.checkModelInstalled "demo:3b" world_zero).1 = true ↔
  "demo:3b" ∈ installed_names (OllamaTagsResponse.mk [OllamaModel.mk "demo:3b" "" 0]).
Proof.
  exact (proj1 (checkModelInstalled_exact config_demo "demo:3b" world_zero world_zero 200
                  (OllamaTagsResponse.mk [OllamaModel.mk "demo:3b" "" 0])
                  eq_refl eq_refl)).
Defined.

(** * Further properties of the report *)

Lemma ltb_trans (x y z : float) :
  is_nan x = false → is_nan y = false → is_nan z = false →
  (x <? y)%float = true → (y <? z)%float = true → (x <? z)%float = true.
Proof.
  intros Hx Hy Hz Hxy Hyz. destruct (x <? z)%float eqn:Hxz; [done|].
  assert ((z <? y)%float = false) as Hzy by by apply ltb_asym.
  pose proof (ltb_negtrans x z y Hx Hz Hy Hxz Hzy). congruence.
Qed.

(** X15: "Most efficient (smallest)": none when no model ran; else a model of the
    ranking whose estimate no other undercuts, and the first of the ranking
    among those with that estimate. *)
Theorem smallestModel_least successful :
  match Smart.smallestModel successful with
  | None => successful = []
  | Some smallest =>
      ∃ before after,
        successful = before ++ smallest :: after ∧
        Forall (λ s, (Smart.estimateModelRAM (Smart.ModelSummary.ModelName smallest)
                      < Smart.estimateModelRAM (Smart.ModelSummary.ModelName s))%Z) before ∧
        Forall (λ s, (Smart.estimateModelRAM (Smart.ModelSummary.ModelName smallest)
                      <= Smart.estimateModelRAM (Smart.ModelSummary.ModelName s))%Z) after
  end.
Proof.
  unfold Smart.smallestModel.
  set (step := λ (smallest : option Smart.ModelSummary.t) (s : Smart.ModelSummary.t),
         match smallest with
         | None => Some s
         | Some sm =>
             if (Smart.estimateModelRAM (Smart.ModelSummary.ModelName s)
                 <? Smart.estimateModelRAM (Smart.ModelSummary.ModelName sm))%Z
             then Some s else smallest
         end).
  set (est := λ s, Smart.estimateModelRAM (Smart.ModelSummary.ModelName s)).
  assert (∀ rest seen cur before after,
            seen = before ++ cur :: after →
            Forall (λ s, (est cur < est s)%Z) before →
            Forall (λ s, (est cur <= est s)%Z) after →
            ∃ smallest before' after',
              foldl step (Some cur) rest = Some smallest ∧
              seen ++ rest = before' ++ smallest :: after' ∧
              Forall (λ s, (est smallest < est s)%Z) before' ∧
              Forall (λ s, (est smallest <= est s)%Z) after') as G.
  { induction rest as [|s rest IH]; intros seen cur before after Hseen Hb Ha; simpl.
    - exists cur, before, after. by rewrite app_nil_r.
    - fold (est s) (est cur). destruct (Z.ltb_spec (est s) (est cur)) as [Hlt|Hge].
      + destruct (IH (seen ++ [s]) s seen []) as (sm & b' & a' & Hf & Heq & Hb' & Ha').
        * done.
        * rewrite Hseen. apply Forall_app. split.
          -- eapply Forall_impl; [exact Hb|]. simpl. intros; lia.
          -- constructor; [lia|]. eapply Forall_impl; [exact Ha|]. simpl. intros; lia.
        * constructor.
        * exists sm, b', a'. by rewrite <- app_assoc in Heq.
      + destruct (IH (seen ++ [s]) cur before (after ++ [s]))
          as (sm & b' & a' & Hf & Heq & Hb' & Ha').
        * rewrite Hseen. by rewrite <- app_assoc.
        * done.
        * apply Forall_app. split; [done|]. constructor; [lia|constructor].
        * exists sm, b', a'. by rewrite <- app_assoc in Heq. }
  destruct successful as [|s rest]; simpl; [done|].
  destruct (G rest [s] s [] []) as (sm & b' & a' & -> & Heq & Hb & Ha);
    [done|constructor|constructor|].
  by exists b', a'.
Qed.

Section BestRow.
Import Smart.

Lemma categoryRows_concat category successful :
  categoryRows category successful = concat (map (rows_of category) successful).
Proof.
  unfold categoryRows.
  assert (∀ rows, foldl (λ rows s,
             foldl (λ rows r,
                      if String.eqb (BenchmarkResult.Category r) category
                         && BenchmarkResult.Success r
                      then rows ++ [(ModelSummary.ModelName s, r)] else rows)
                   rows (ModelSummary.TestResults s)) rows successful
          = rows ++ concat (map (rows_of category) successful)) as G.
  { induction successful as [|s ss IH]; intros rows; simpl.
    - by rewrite app_nil_r.
    - rewrite IH, app_assoc. f_equal.
      apply (foldl_snoc_map_filter (in_category category)
               (pair (ModelSummary.ModelName s)) (ModelSummary.TestResults s) rows). }
  apply (G []).
Qed.

Lemma bestInCategory_rows category successful :
  bestInCategory category successful
  = foldl bestRowStep ("", 0%float) (categoryRows category successful).
Proof.
  rewrite categoryRows_concat. unfold bestInCategory.
  generalize ("", 0%float) as best.
  induction successful as [|s ss IH]; intros best; simpl; [done|].
  rewrite foldl_app, IH. f_equal. unfold rows_of.
  generalize (ModelSummary.TestResults s) as rs. clear. intros rs. revert best.
  induction rs as [|r rs IH]; intros best; simpl; [done|].
  rewrite IH. unfold bestStep. fold (in_category category r).
  destruct (String.eqb (BenchmarkResult.Category r) category
            && BenchmarkResult.Success r) eqn:Hin; fold (in_category category r) in Hin;
    rewrite Hin; simpl; [|done].
  unfold bestRowStep, speed. simpl.
  by destruct (best.2 <? BenchmarkResult.TokensPerSecond r)%float.
Qed.

Lemma ltb_irrefl (x : float) : (x <? x)%float = false.
Proof. destruct (x <? x)%float eqn:H; [|done]. by rewrite (ltb_asym x x H) in H. Qed.

Lemma ltb_of_not_ltb (x y z : float) :
  is_nan x = false → is_nan y = false → is_nan z = false →
  (x <? y)%float = false → (x <? z)%float = true → (y <? z)%float = true.
Proof.
  intros Hx Hy Hz Hxy Hxz. destruct (y <? z)%float eqn:Hyz; [done|].
  pose proof (ltb_negtrans x y z Hx Hy Hz Hxy Hyz). congruence.
Qed.

Lemma bestRowStep_keeps seen best x :
  Forall (λ row, is_nan (speed row) = false) seen → is_nan (speed x) = false →
  first_best seen best → first_best (seen ++ [x]) (bestRowStep best x).
Proof.
  intros Hseen Hx [[-> Hzero]|(b & row & a & -> & -> & Hpos & Hb & Ha)];
    unfold bestRowStep; simpl.
  - destruct (0 <? speed x)%float eqn:Hx0.
    + right. exists seen, x, []. split; [done|]. split; [done|]. split; [done|].
      split; [|constructor].
      pose proof (proj2 (Forall_and _ seen) (conj Hseen Hzero)) as Hboth.
      eapply Forall_impl; [exact Hboth|]. simpl. intros row' [Hn Hz].
      by apply (ltb_of_not_ltb 0 (speed row') (speed x)).
    + left. split; [done|]. apply Forall_app. split; [done|]. by constructor.
  - apply Forall_app in Hseen as [Hnb Hseen]. apply Forall_cons in Hseen as [Hnrow Hna].
    destruct (speed row <? speed x)%float eqn:Hlt.
    + right. exists (b ++ row :: a), x, []. split; [done|]. split; [done|].
      split; [by apply (ltb_trans 0 (speed row) (speed x))|]. split; [|constructor].
      apply Forall_app. split; [|constructor; [done|]].
      * pose proof (proj2 (Forall_and _ b) (conj Hnb Hb)) as Hboth.
        eapply Forall_impl; [exact Hboth|]. simpl. intros row' [Hn Hl].
        by apply (ltb_trans (speed row') (speed row) (speed x)).
      * pose proof (proj2 (Forall_and _ a) (conj Hna Ha)) as Hboth.
        eapply Forall_impl; [exact Hboth|]. simpl. intros row' [Hn Hl].
        by apply (ltb_of_not_ltb (speed row) (speed row') (speed x)).
    + right. exists b, row, (a ++ [x]). split; [by rewrite <- app_assoc|].
      split; [done|]. split; [done|]. split; [done|].
      apply Forall_app. split; [done|]. by constructor.
Qed.

Lemma bestRowStep_first rows :
  Forall (λ row, is_nan (speed row) = false) rows →
  first_best rows (foldl bestRowStep ("", 0%float) rows).
Proof.
  intros Hnan.
  assert (∀ rest seen best,
            Forall (λ row, is_nan (speed row) = false) (seen ++ rest) →
            first_best seen best →
            first_best (seen ++ rest) (foldl bestRowStep best rest)) as G.
  { induction rest as [|x rest IH]; intros seen best Hall Hinv; simpl.
    - by rewrite app_nil_r.
    - replace (seen ++ x :: rest) with ((seen ++ [x]) ++ rest) in *
        by by rewrite <- app_assoc.
      apply IH; [done|]. apply Forall_app in Hall as [Hall _].
      apply Forall_app in Hall as [Hseen Hx]. apply Forall_cons in Hx as [Hx _].
      by apply bestRowStep_keeps. }
  apply (G rows [] ("", 0%float)); [done|]. left. split; [done|constructor].
Qed.

(** X16: the line of a category under "Best Model for Each Category" is made of
    the first row of the category table with the greatest speed, when that
    speed is above 0; when no row is above 0 there is no best model. *)
Theorem bestInCategory_first_fastest category successful :
  Forall (λ row, is_nan (speed row) = false) (categoryRows category successful) →
  first_best (categoryRows category successful) (bestInCategory category successful).
Proof. intros Hnan. rewrite bestInCategory_rows. by apply bestRowStep_first. Qed.

Lemma bestInCategory_first_fastest_witness :
  first_best (categoryRows "qa" [summary_two_speeds])
             (bestInCategory "qa" [summary_two_speeds]).
Proof.
  apply (bestInCategory_first_fastest "qa" [summary_two_speeds]).
  vm_compute. repeat constructor.
Defined.
End BestRow.

Lemma elem_of_categoryRows category successful name r :
  (name, r) ∈ Smart.categoryRows category successful ↔
  ∃ s, s ∈ successful ∧ Smart.ModelSummary.ModelName s = name ∧
       r ∈ Smart.ModelSummary.TestResults s ∧
       Smart.BenchmarkResult.Category r = category ∧
       Smart.BenchmarkResult.Success r = true.
Proof.
  rewrite categoryRows_concat, list_elem_of_In, in_concat. split.
  - intros (rows & Hrows & Hin). apply list_elem_of_In in Hrows, Hin.
    apply list_elem_of_fmap in Hrows as (s & -> & Hs).
    unfold rows_of in Hin. apply list_elem_of_fmap in Hin as (r' & [= -> ->] & Hr).
    apply elem_of_List_filter in Hr as [Hr Hc]. unfold in_category in Hc.
    apply andb_true_iff in Hc as [Hc%String.eqb_eq Hok]. by exists s.
  - intros (s & Hs & <- & Hr & Hc & Hok). exists (rows_of category s).
    rewrite <- !list_elem_of_In. split.
    + apply list_elem_of_fmap. by exists s.
    + unfold rows_of. apply list_elem_of_fmap. exists r. split; [done|].
      apply elem_of_List_filter. split; [done|]. unfold in_category.
      apply andb_true_iff. split; [by apply String.eqb_eq|done].
Qed.

Lemma leb_refl (x : float) : is_nan x = false → (x <=? x)%float = true.
Proof. intros Hx. apply leb_of_not_ltb; [done..|]. apply ltb_irrefl. Qed.

Lemma overallRanking_sorted_by `{SortSlice} summaries :
  Forall (λ s, Smart.ModelSummary.CanRun s = true →
               is_nan (Smart.ModelSummary.AvgTokensPerSec s) = false) summaries →
  sorted_by Smart.fasterThan (Smart.overallRanking summaries).
Proof.
  intros Hnan. unfold Smart.overallRanking.
  rewrite (foldl_snoc_filter Smart.ModelSummary.CanRun summaries []). simpl.
  apply sort_Slice_sorted, fasterThan_strict_weak.
  rewrite Forall_forall in Hnan |- *. intros s Hs.
  apply elem_of_List_filter in Hs as [Hs Hrun]. by apply Hnan.
Qed.

(** X17: "Best overall performer": none when no model can run; else a model that
    can run and whose average no other model that can run exceeds. *)
Theorem bestOverall_fastest `{SortSlice} summaries report :
  Smart.displayResults summaries = Some report →
  Forall (λ s, Smart.ModelSummary.CanRun s = true →
               is_nan (Smart.ModelSummary.AvgTokensPerSec s) = false) summaries →
  match Smart.Report.bestOverall report with
  | None => Forall (λ s, Smart.ModelSummary.CanRun s = false) summaries
  | Some best =>
      best ∈ summaries ∧ Smart.ModelSummary.CanRun best = true ∧
      ∀ s, s ∈ summaries → Smart.ModelSummary.CanRun s = true →
        (Smart.ModelSummary.AvgTokensPerSec s
         <=? Smart.ModelSummary.AvgTokensPerSec best)%float = true
  end.
Proof.
  intros Hreport Hnan. unfold Smart.displayResults in Hreport.
  case_bool_decide; [done|]. injection Hreport as <-. simpl.
  pose proof (overallRanking_sorted_by summaries Hnan) as Hsorted.
  destruct (Smart.overallRanking summaries) as [|best rest] eqn:Hrank; simpl.
  - apply Forall_forall. intros s Hs.
    destruct (Smart.ModelSummary.CanRun s) eqn:Hrun; [|done].
    assert (s ∈ Smart.overallRanking summaries) as Hin by by apply elem_of_overallRanking.
    rewrite Hrank in Hin. by apply elem_of_nil in Hin.
  - assert (best ∈ Smart.overallRanking summaries) as Hb by (rewrite Hrank; left).
    apply elem_of_overallRanking in Hb as [Hb Hbrun]. split; [done|]. split; [done|].
    intros s Hs Hrun.
    assert (s ∈ Smart.overallRanking summaries) as Hin by by apply elem_of_overallRanking.
    rewrite Hrank in Hin. rewrite Forall_forall in Hnan.
    apply list_elem_of_lookup in Hin as [j Hj]. destruct j as [|j].
    + injection Hj as <-. apply leb_refl. by apply Hnan.
    + apply leb_of_not_ltb; [by apply Hnan|by apply Hnan|].
      apply (Hsorted 0%nat (S j) best s); [lia|done|done].
Qed.

(** X18: the breakdown has one table for each category in which a model that can
    run has a successful result, and no other; a table is never empty, and
    its rows are the successful results of that category. When the slice of
    summaries is empty nothing is reported. *)
Theorem breakdown_tables `{SortSlice} summaries :
  match Smart.displayResults summaries with
  | None => summaries = []
  | Some report =>
      summaries ≠ [] ∧
      NoDup (map fst (Smart.Report.breakdown report)) ∧
      (∀ category,
         category ∈ map fst (Smart.Report.breakdown report) ↔
         ∃ s r, s ∈ summaries ∧ Smart.ModelSummary.CanRun s = true ∧
                r ∈ Smart.ModelSummary.TestResults s ∧
                Smart.BenchmarkResult.Success r = true ∧
                Smart.BenchmarkResult.Category r = category) ∧
      (∀ category rows,
         (category, rows) ∈ Smart.Report.breakdown report →
         rows ≠ [] ∧
         ∀ name r,
           (name, r) ∈ rows ↔
           ∃ s, s ∈ summaries ∧ Smart.ModelSummary.CanRun s = true ∧
                Smart.ModelSummary.ModelName s = name ∧
                r ∈ Smart.ModelSummary.TestResults s ∧
                Smart.BenchmarkResult.Category r = category ∧
                Smart.BenchmarkResult.Success r = true)
  end.
Proof.
  unfold Smart.displayResults. case_bool_decide as Hlen.
  - by destruct summaries.
  - split; [by intros ->|]. simpl. rewrite map_map. simpl. rewrite map_id.
    set (ranking := Smart.overallRanking summaries).
    assert (∀ category,
              category ∈ range_keys (Smart.categoriesOf ranking) ↔
              ∃ s r, s ∈ summaries ∧ Smart.ModelSummary.CanRun s = true ∧
                     r ∈ Smart.ModelSummary.TestResults s ∧
                     Smart.BenchmarkResult.Success r = true ∧
                     Smart.BenchmarkResult.Category r = category) as Hcat.
    { intros category. rewrite elem_of_range_keys, categoriesOf_lookup. split.
      - intros (s & r & Hs & Hr & Hok & Hc).
        apply elem_of_overallRanking in Hs as [Hs Hrun]. by exists s, r.
      - intros (s & r & Hs & Hrun & Hr & Hok & Hc). exists s, r.
        split; [by apply elem_of_overallRanking|done]. }
    assert (∀ category name r,
              (name, r) ∈ Smart.categoryRows category ranking ↔
              ∃ s, s ∈ summaries ∧ Smart.ModelSummary.CanRun s = true ∧
                   Smart.ModelSummary.ModelName s = name ∧
                   r ∈ Smart.ModelSummary.TestResults s ∧
                   Smart.BenchmarkResult.Category r = category ∧
                   Smart.BenchmarkResult.Success r = true) as Hrows.
    { intros category name r. rewrite elem_of_categoryRows. split.
      - intros (s & Hs & ?). apply elem_of_overallRanking in Hs as [Hs Hrun].
        by exists s.
      - intros (s & Hs & Hrun & ?). exists s.
        split; [by apply elem_of_overallRanking|done]. }
    split; [apply NoDup_fst_map_to_list|]. split; [done|].
    intros category rows Hin. apply list_elem_of_fmap in Hin as (c & [= -> ->] & Hc).
    split; [|by apply Hrows].
    apply Hcat in Hc as (s & r & Hs & Hrun & Hr & Hok & Hcr).
    intros Hnil.
    assert ((Smart.ModelSummary.ModelName s, r) ∈ Smart.categoryRows c ranking) as Hrow.
    { apply Hrows. by exists s. }
    rewrite Hnil in Hrow. by apply elem_of_nil in Hrow.
Qed.

Lemma bestOverall_fastest_witness :
  let summaries := [summary_first; summary_two_speeds; summary_zero_speed] in
  ∃ report,
    @Smart.displayResults insertion_SortSlice summaries = Some report ∧
    match Smart.Report.bestOverall report with
    | None => Forall (λ s, Smart.ModelSummary.CanRun s = false) summaries
    | Some best =>
        best ∈ summaries ∧ Smart.ModelSummary.CanRun best = true ∧
        ∀ s, s ∈ summaries → Smart.ModelSummary.CanRun s = true →
          (Smart.ModelSummary.AvgTokensPerSec s
           <=? Smart.ModelSummary.AvgTokensPerSec best)%float = true
    end.
Proof.
  intros summaries. eexists. split; [vm_compute; reflexivity|].
  apply (@bestOverall_fastest insertion_SortSlice summaries _);
    [vm_compute; reflexivity|].
  repeat constructor.
Defined.

(** * The whole run *)

(** X19: [main] stops before any benchmark when the daemon does not answer the
    listing with status 200 or when the catalog is empty, and then neither
    pulls nor generates; else it leaves one summary for each model of the
    catalog that passes the filter, in that order, and reports on them. *)
Theorem main_run `{SortSlice} config sysInfo w :
  let running := (Smart.checkOllamaRunning w).1 in
  let catalog := (Smart.getOllamaLibraryModels config (Smart.checkOllamaRunning w).2).1 in
  match (Smart.main config sysInfo w).1 with
  | None =>
      (running = false ∨ catalog = []) ∧
      World.pullCalls (Smart.main config sysInfo w).2 = World.pullCalls w ∧
      World.generateCalls (Smart.main config sysInfo w).2 = World.generateCalls w
  | Some (summaries, report) =>
      running = true ∧ catalog ≠ [] ∧
      map Smart.ModelSummary.ModelName summaries
        = Smart.filterModelsByResources catalog sysInfo config ∧
      report = Smart.displayResults summaries
  end.
Proof.
  cbv zeta. unfold Smart.main. rewrite IO_bind_run.
  assert (World.pullCalls (Smart.checkOllamaRunning w).2 = World.pullCalls w ∧
          World.generateCalls (Smart.checkOllamaRunning w).2 = World.generateCalls w)
    as [Hp1 Hg1] by done.
  destruct (Smart.checkOllamaRunning w) as [running w1]. cbn [fst snd] in *.
  destruct running; cbn [negb]; [|unfold mret, IO_ret; cbn [fst snd]; auto].
  rewrite IO_bind_run.
  assert (World.pullCalls (Smart.getOllamaLibraryModels config w1).2 = World.pullCalls w1 ∧
          World.generateCalls (Smart.getOllamaLibraryModels config w1).2
            = World.generateCalls w1) as [Hp2 Hg2] by done.
  destruct (Smart.getOllamaLibraryModels config w1) as [catalog w2]. cbn [fst snd] in *.
  case_bool_decide as Hlen.
  - unfold mret, IO_ret. cbn [fst snd]. split; [right; by destruct catalog|].
    split; congruence.
  - rewrite IO_bind_run. unfold mret, IO_ret. cbn [fst snd].
    split; [done|]. split; [by intros ->|]. split; [|done].
    unfold Smart.runBenchmarks.
    destruct (runBenchmarks_run config
                (Smart.filterModelsByResources catalog sysInfo config) [] w2)
      as (new & -> & Hnew). simpl.
    induction Hnew as [|m s ms ss [Hn _] _ IH]; simpl; [done|]. by rewrite Hn, IH.
Qed.

(** * The basic driver *)

Section BasicRun.
Import Basic.

Lemma Basic_battery_run model (tests : list TestCase.t) acc w :
  forM tests (λ acc test, result ← runBenchmark model test; mret (tally acc result)) acc w =
  (foldl tally acc
     (zip_with (benchmarkResult model) tests
        (generate_replies w (World.generateCalls w) (length tests))),
   World.mk (World.tags w) (World.pulls w) (World.generates w)
            (World.tagsCalls w) (World.pullCalls w)
            (length tests + World.generateCalls w)).
Proof.
  revert acc w. induction tests as [|test tests IH]; intros acc w; simpl.
  - by destruct w.
  - rewrite IO_bind_run. rewrite (IO_bind_run (runBenchmark model test)).
    unfold runBenchmark at 1 2. rewrite !IO_bind_run. simpl. rewrite IH. simpl.
    unfold generate_replies. do 2 f_equal. lia.
Qed.

Lemma Basic_tally_results rs acc :
  Tally.results (foldl tally acc rs) = Tally.results acc ++ rs.
Proof.
  revert acc. induction rs as [|r rs IH]; intros acc; simpl.
  - by rewrite app_nil_r.
  - rewrite IH. unfold tally. destruct (BenchmarkResult.Success r); simpl;
      by rewrite <- app_assoc.
Qed.

Lemma Basic_tally_totalTPS rs acc :
  Tally.totalTPS (foldl tally acc rs) =
  foldl PrimFloat.add (Tally.totalTPS acc)
        (map BenchmarkResult.TokensPerSecond (Basic_successes rs)).
Proof.
  revert acc. induction rs as [|r rs IH]; intros acc; simpl; [done|].
  rewrite IH. unfold tally. by destruct (BenchmarkResult.Success r).
Qed.

Lemma Basic_tally_totalTime rs acc :
  Tally.totalTime (foldl tally acc rs) =
  foldl PrimFloat.add (Tally.totalTime acc)
        (map BenchmarkResult.TotalTimeMs (Basic_successes rs)).
Proof.
  revert acc. induction rs as [|r rs IH]; intros acc; simpl; [done|].
  rewrite IH. unfold tally. by destruct (BenchmarkResult.Success r).
Qed.

Lemma Basic_tally_successCount rs acc :
  (0 <= Tally.successCount acc)%Z →
  (Tally.successCount acc + Z.of_nat (length rs) <= int64_max)%Z →
  Tally.successCount (foldl tally acc rs) =
  (Tally.successCount acc + Z.of_nat (length (Basic_successes rs)))%Z.
Proof.
  revert acc. induction rs as [|r rs IH]; intros acc H0 Hmax; simpl; [lia|].
  simpl in Hmax.
  assert (length (Basic_successes rs) ≤ length rs)%nat as Hle by apply filter_length_le.
  unfold tally at 2. destruct (BenchmarkResult.Success r) eqn:Hr.
  - rewrite IH; simpl; rewrite int64_add_exact; unfold int64_min, int64_max in *; lia.
  - rewrite IH; simpl; lia.
Qed.

Lemma Basic_battery_categories model (tests : list TestCase.t) replies :
  length replies = length tests →
  map BenchmarkResult.Category (zip_with (benchmarkResult model) tests replies)
  = map TestCase.Category tests.
Proof.
  revert replies. induction tests as [|test tests IH]; intros [|reply replies] Hlen;
    simpl in *; try done.
  rewrite IH by lia. f_equal. by destruct reply.
Qed.

Lemma Basic_testModel_comparison model w :
  comparison_of model (testModel model w).1.
Proof.
  unfold testModel. rewrite IO_bind_run, Basic_battery_run.
  unfold mret, IO_ret. cbn [fst snd].
  set (rs := zip_with (benchmarkResult model) testCases
               (generate_replies w (World.generateCalls w) (length testCases))).
  assert (length rs = length testCases) as Hlen.
  { unfold rs, generate_replies. rewrite length_zip_with, length_map, length_seq. lia. }
  assert (map BenchmarkResult.Category rs = map TestCase.Category testCases) as Hcat.
  { unfold rs. apply Basic_battery_categories.
    unfold generate_replies. by rewrite length_map, length_seq. }
  unfold comparison_of, summarize. cbn [ModelComparison.ModelName
    ModelComparison.TestResults ModelComparison.AvgTokensPerSec
    ModelComparison.AvgTotalTimeMs].
  rewrite Basic_tally_results, Basic_tally_totalTPS, Basic_tally_totalTime.
  rewrite Basic_tally_successCount; cbn [Tally.successCount Tally.results
    Tally.totalTPS Tally.totalTime app]; [|lia|].
  2:{ rewrite Hlen. simpl. unfold int64_max. lia. }
  rewrite !mean_unfold, !length_map. unfold float_sum. done.
Qed.

Lemma Basic_benchmarkModel_run comparisons model w :
  (benchmarkModel comparisons model w).1 = comparisons ∨
  ∃ c, (benchmarkModel comparisons model w).1 = comparisons ++ [c] ∧
       comparison_of model c.
Proof.
  unfold benchmarkModel. rewrite IO_bind_run.
  destruct (checkModelAvailable model w) as [available w1]. cbn [fst snd].
  assert (∀ w2, ∃ c,
            ((comparison ← testModel model; mret (comparisons ++ [comparison])) w2).1
            = comparisons ++ [c] ∧ comparison_of model c) as Htest.
  { intros w2. rewrite IO_bind_run. unfold mret, IO_ret. cbn [fst snd].
    eexists. split; [done|]. apply Basic_testModel_comparison. }
  destruct available; cbn [negb]; [right; apply Htest|].
  rewrite IO_bind_run. destruct (pullModel model w1) as [pulled w2]. cbn [fst snd].
  destruct pulled; cbn [negb]; [right; apply Htest|by left].
Qed.

Lemma Basic_forM_compared ms acc w :
  ∃ compared new, (forM ms benchmarkModel acc w).1 = acc ++ new ∧
    sublist compared ms ∧ Forall2 comparison_of compared new.
Proof.
  revert acc w. induction ms as [|m ms IH]; intros acc w; simpl.
  - exists [], []. by rewrite app_nil_r.
  - rewrite IO_bind_run.
    destruct (Basic_benchmarkModel_run acc m w) as [->|(c & -> & Hc)].
    + destruct (IH acc (benchmarkModel acc m w).2) as (cs & new & -> & Hsub & Hall).
      exists cs, new. split; [done|]. split; [by constructor|done].
    + destruct (IH (acc ++ [c]) (benchmarkModel acc m w).2)
        as (cs & new & -> & Hsub & Hall).
      exists (m :: cs), (c :: new). split; [by rewrite <- app_assoc|].
      split; by constructor.
Qed.


(** X21: as soon as one model is compared, the comparison has a table for every
    category of the battery, whether or not any result of the category
    succeeded: the basic driver collects the categories of failed results
    too. *)
Theorem Basic_categories_all w comparisons category :
  (main w).1 = Some comparisons → comparisons ≠ [] →
  category ∈ range_keys (categoriesOf comparisons) ↔
  category ∈ map TestCase.Category testCases.
Proof.
  intros Hmain Hne. unfold main in Hmain. rewrite IO_bind_run in Hmain.
  destruct (checkOllamaRunning w) as [running w1]. cbn [fst snd] in Hmain.
  destruct running; cbn [negb] in Hmain; [|done].
  rewrite IO_bind_run in Hmain. unfold mret, IO_ret in Hmain. cbn [fst snd] in Hmain.
  destruct (Basic_forM_compared models [] w1) as (compared & new & Hrun & _ & Hall).
  rewrite Hrun in Hmain. injection Hmain as <-.
  change ([] ++ new) with new in *.
  rewrite elem_of_range_keys, Basic_categoriesOf_lookup. split.
  - intros (comp & r & Hcomp & Hr & <-).
    apply list_elem_of_lookup in Hcomp as [i Hi].
    destruct (Forall2_lookup_r _ _ _ _ _ Hall Hi) as (model & _ & Hc).
    destruct Hc as (_ & <- & _). apply list_elem_of_fmap. by exists r.
  - intros Hcat. destruct Hall as [|model comp ms cs Hc _]; [done|].
    destruct Hc as (_ & Hcs & _). rewrite <- Hcs in Hcat.
    apply list_elem_of_fmap in Hcat as (r & -> & Hr).
    exists comp, r. split; [left|done].
Qed.
End BasicRun.

Lemma Basic_categories_all_witness :
  "coding" ∈ range_keys (Basic.categoriesOf (default [] (Basic.main world_refusing).1)).
Proof.
  apply (Basic_categories_all world_refusing (default [] (Basic.main world_refusing).1)
           "coding").
  - vm_compute. reflexivity.
  - vm_compute. discriminate.
  - vm_compute. repeat constructor.
Defined.
